(** * The collaboration manager of [backend/services/collaboration.py]

    A shallow embedding of [CollaborationManager]: the in-process session
    registry ([active_sessions], [session_metadata]), the local broadcaster,
    the Redis-backed event history and the pub/sub relay, together with the
    properties of the synchronisation engine that hold on that code.

    Conventions of the embedding:
    - a coroutine is a computation in the monad [M]: it threads the [World]
      (manager object, Redis server, transports, effect trace) and either
      returns or raises a Python exception; state changes made before an
      exception is raised persist, as in Python;
    - one coroutine body runs without interleaving; the two registry
      mutations ([add_participant], [remove_participant]) contain no [await] in the
      source and are therefore atomic there as well;
    - [uuid.uuid4()] and [datetime.utcnow().isoformat()] are inputs of the
      functions that call them;
    - a text frame is represented by what [json.loads] makes of it
      ([text]); JSON numbers are integers (floats are left out). *)

From stdpp Require Import gmap strings list fin_maps.
From Stdlib Require Import ZArith.

Set Warnings "-register-all".
Local Open Scope Z_scope.

(** ** JSON values and the codec *)

Inductive json :=
  | JNull
  | JBool (b : bool)
  | JInt (n : Z)
  | JStr (s : string)
  | JList (l : list json)
  | JDict (d : gmap string json).

(** A frame on a websocket, an entry of a Redis list or a pub/sub payload:
    either the encoding of a JSON value or text that does not parse. *)
Inductive text :=
  | Encoded (v : json)
  | Garbled (raw : string).

Inductive exn :=
  | JSONDecodeError
  | KeyError
  | AttributeError
  | TypeError
  | ConnectionClosed
  | OSError
  | RedisConnectionError.

Definition dumps (v : json) : text := Encoded v.

Definition loads (t : text) : exn + json :=
  match t with
  | Encoded v => inr v
  | Garbled _ => inl JSONDecodeError
  end.

(** Python truthiness, as used by [if exclude_user and ...]. *)
Definition truthy (v : json) : bool :=
  match v with
  | JNull => false
  | JBool b => b
  | JInt n => negb (n =? 0)
  | JStr s => negb (String.eqb s "")
  | JList l => match l with [] => false | _ => true end
  | JDict d => negb (bool_decide (d = ∅))
  end.

(** [uid == v] for a [str] key [uid] and an arbitrary Python value [v]. *)
Definition str_eq (uid : string) (v : json) : bool :=
  match v with
  | JStr s => String.eqb uid s
  | _ => false
  end.

(** ** The world a coroutine runs in *)

(** A transport handle ([websockets.WebSocketServerProtocol] object). *)
Definition ws := nat.

Inductive link := Up | Closed | Broken.

Inductive level := DEBUG | INFO | WARNING | ERROR.

Inductive effect :=
  | Send (w : ws) (m : text)          (* a call of [websocket.send(m)] *)
  | Log (lv : level) (event : string) (* a structlog call *).

(** The Redis server, as far as the manager uses it. *)
Record Redis := mkRedis {
  reachable : bool;
  lists : gmap string (list text);
  ttls : gmap string Z;
  published : list (string * text)
}.

(** [session_metadata[session_id]]. *)
Record Meta := mkMeta {
  created_at : string;
  user_count : Z
}.

(** The fields of a [CollaborationManager] instance. *)
Record Manager := mkManager {
  redis_client : bool;   (* [false] is [None] *)
  pubsub : bool;         (* [false] is [None] *)
  listener : bool;       (* the [_handle_pubsub_messages] task was created *)
  active_sessions : gmap string (gmap string ws);
  session_metadata : gmap string Meta
}.

Record World := mkWorld {
  self : Manager;
  broker : Redis;
  links : gmap ws link;
  trace : list effect
}.

Definition new_manager : Manager :=
  mkManager false false false ∅ ∅.

Definition with_self (f : Manager → Manager) (σ : World) : World :=
  mkWorld (f (self σ)) (broker σ) (links σ) (trace σ).

Definition with_broker (f : Redis → Redis) (σ : World) : World :=
  mkWorld (self σ) (f (broker σ)) (links σ) (trace σ).

Definition with_trace (f : list effect → list effect) (σ : World) : World :=
  mkWorld (self σ) (broker σ) (links σ) (f (trace σ)).

Definition set_active (a : gmap string (gmap string ws)) (m : Manager) : Manager :=
  mkManager (redis_client m) (pubsub m) (listener m) a (session_metadata m).

Definition set_metadata (md : gmap string Meta) (m : Manager) : Manager :=
  mkManager (redis_client m) (pubsub m) (listener m) (active_sessions m) md.

Definition set_lists (l : gmap string (list text)) (r : Redis) : Redis :=
  mkRedis (reachable r) l (ttls r) (published r).

Definition set_ttls (t : gmap string Z) (r : Redis) : Redis :=
  mkRedis (reachable r) (lists r) t (published r).

Definition set_published (p : list (string * text)) (r : Redis) : Redis :=
  mkRedis (reachable r) (lists r) (ttls r) p.

(** ** The coroutine monad: state and exceptions *)

Inductive result (A : Type) :=
  | Ok (a : A)
  | Raise (e : exn).
Arguments Ok {A} a.
Arguments Raise {A} e.

Definition M (A : Type) : Type := World → result A * World.

Definition ret {A} (a : A) : M A := λ σ, (Ok a, σ).

Definition raise {A} (e : exn) : M A := λ σ, (Raise e, σ).

Definition bind {A B} (m : M A) (k : A → M B) : M B :=
  λ σ, match m σ with
       | (Ok a, σ') => k a σ'
       | (Raise e, σ') => (Raise e, σ')
       end.

(** [try: m  except Exception as e: h e] *)
Definition try_except {A} (m : M A) (h : exn → M A) : M A :=
  λ σ, match m σ with
       | (Ok a, σ') => (Ok a, σ')
       | (Raise e, σ') => h e σ'
       end.

(** [try: m  finally: f] *)
Definition try_finally {A} (m : M A) (f : M unit) : M A :=
  λ σ, match m σ with
       | (r, σ') =>
           match f σ' with
           | (Ok _, σ'') => (r, σ'')
           | (Raise e, σ'') => (Raise e, σ'')
           end
       end.

Definition get_world : M World := λ σ, (Ok σ, σ).

Definition modify (f : World → World) : M unit := λ σ, (Ok tt, f σ).

Definition lift {A} (r : exn + A) : M A :=
  match r with
  | inl e => raise e
  | inr a => ret a
  end.

Declare Scope coro_scope.
Delimit Scope coro_scope with coro.
Notation "'do' x <- m ; k" := (bind m (λ x, k))
  (at level 10, x name, m at level 100, k at level 200,
   format "'[v' 'do'  x  <-  m ; '/' k ']'") : coro_scope.
Notation "'run' m ; k" := (bind m (λ _, k))
  (at level 10, m at level 100, k at level 200,
   format "'[v' 'run'  m ; '/' k ']'") : coro_scope.
Local Open Scope coro_scope.

Definition emit (e : effect) : M unit :=
  modify (with_trace (λ t, t ++ [e])).

Definition log (lv : level) (event : string) : M unit :=
  emit (Log lv event).

(** [for x in xs: body x], stopping at the first exception. *)
Fixpoint for_each {A} (xs : list A) (body : A → M unit) : M unit :=
  match xs with
  | [] => ret tt
  | x :: xs' => run body x; for_each xs' body
  end.

(** [await asyncio.gather( *coros, return_exceptions=True)]: every
    coroutine runs; an exception of one is returned as a value, not
    raised. *)
Fixpoint gather (coros : list (M unit)) : M unit :=
  match coros with
  | [] => ret tt
  | c :: cs => run try_except c (λ _, ret tt); gather cs
  end.

(** ** Transports *)

Definition link_of (σ : World) (w : ws) : link :=
  default Up (links σ !! w).

(** [await websocket.send(message)] *)
Definition ws_send (w : ws) (message : text) : M unit :=
  run emit (Send w message);
  do σ <- get_world;
  match link_of σ w with
  | Up => ret tt
  | Closed => raise ConnectionClosed
  | Broken => raise OSError
  end.

(** ** Redis commands (redis-py client over the server state) *)

(** The elements of [l] between the inclusive indices [start] and [stop],
    where a negative index counts from the end (LRANGE, LTRIM). *)
Definition redis_range {A} (l : list A) (start stop : Z) : list A :=
  let llen := Z.of_nat (length l) in
  let start := if start <? 0 then llen + start else start in
  let stop := if stop <? 0 then llen + stop else stop in
  let start := if start <? 0 then 0 else start in
  if (stop <? start) || (llen <=? start) then []
  else
    let stop := if llen <=? stop then llen - 1 else stop in
    take (Z.to_nat (stop - start + 1)) (drop (Z.to_nat start) l).

(** Any command on [self.redis_client]: an [AttributeError] when the
    attribute is still [None], a connection error when the server cannot
    be reached. *)
Definition redis_call {A} (cmd : Redis → A * Redis) : M A :=
  do σ <- get_world;
  if negb (redis_client (self σ)) then raise AttributeError
  else if negb (reachable (broker σ)) then raise RedisConnectionError
  else
    let '(a, r) := cmd (broker σ) in
    run modify (with_broker (λ _, r));
    ret a.

Definition ping : M unit :=
  redis_call (λ r, (tt, r)).

Definition lpush (key : string) (v : text) : M unit :=
  redis_call (λ r, (tt, set_lists (<[key := v :: default [] (lists r !! key)]> (lists r)) r)).

Definition ltrim (key : string) (start stop : Z) : M unit :=
  redis_call (λ r,
    match lists r !! key with
    | None => (tt, r)
    | Some l =>
        match redis_range l start stop with
        | [] => (tt, set_ttls (delete key (ttls r)) (set_lists (delete key (lists r)) r))
        | l' => (tt, set_lists (<[key := l']> (lists r)) r)
        end
    end).

Definition expire (key : string) (seconds : Z) : M unit :=
  redis_call (λ r,
    match lists r !! key with
    | None => (tt, r)
    | Some _ => (tt, set_ttls (<[key := seconds]> (ttls r)) r)
    end).

Definition lrange (key : string) (start stop : Z) : M (list text) :=
  redis_call (λ r, (redis_range (default [] (lists r !! key)) start stop, r)).

Definition publish (channel : string) (message : text) : M unit :=
  redis_call (λ r, (tt, set_published (published r ++ [(channel, message)]) r)).

(** ** [CollaborationManager] *)

Definition event_types : gmap string string :=
  list_to_map
    [("VIEW_CHANGE", "view_change"); ("LAYER_CHANGE", "layer_change");
     ("COUNTRY_CHANGE", "country_change"); ("USER_JOIN", "user_join");
     ("USER_LEAVE", "user_leave"); ("CURSOR_MOVE", "cursor_move");
     ("ANNOTATION", "annotation")].

Definition channel : string := "escap_collaboration".

(** [d[k]] on a Python dict. *)
Definition get_item {V} (d : gmap string V) (k : string) : M V :=
  match d !! k with
  | Some v => ret v
  | None => raise KeyError
  end.

(** [data.get(k)] on an arbitrary decoded JSON value. *)
Definition dict_get (data : json) (k : string) : M json :=
  match data with
  | JDict d => ret (default JNull (d !! k))
  | _ => raise AttributeError
  end.

(** [start] *)
Definition start : M unit :=
  try_except
    (run modify (with_self (λ m,
           mkManager true (pubsub m) (listener m) (active_sessions m) (session_metadata m)));
     run ping;
     run modify (with_self (λ m,
           mkManager (redis_client m) true (listener m) (active_sessions m) (session_metadata m)));
     run redis_call (λ r, (tt, r));   (* SUBSCRIBE escap_collaboration *)
     run modify (with_self (λ m,
           mkManager (redis_client m) (pubsub m) true (active_sessions m) (session_metadata m)));
     log INFO "Collaboration manager started successfully")
    (λ e,
     run log ERROR "Failed to start collaboration manager";
     raise e).

(** [_safe_send] *)
Definition _safe_send (websocket : ws) (message : text) : M unit :=
  try_except (ws_send websocket message)
    (λ e, match e with
          | ConnectionClosed => ret tt
          | _ => log WARNING "Failed to send message to websocket"
          end).

(** The list built by the loop of [_broadcast_to_session]. *)
Definition websockets_to_send (users : gmap string ws) (exclude_user : json) : list ws :=
  omap (λ '(uid, websocket),
          if truthy exclude_user && str_eq uid exclude_user then None
          else Some websocket)
       (map_to_list users).

(** [_broadcast_to_session]; [exclude_user] defaults to [JNull] ([None]). *)
Definition _broadcast_to_session
    (session_id : string) (data : json) (exclude_user : json) : M unit :=
  do σ <- get_world;
  match active_sessions (self σ) !! session_id with
  | None => ret tt
  | Some users =>
      let message := dumps data in
      match websockets_to_send users exclude_user with
      | [] => ret tt
      | to_send => gather (map (λ w, _safe_send w message) to_send)
      end
  end.

Definition events_key (session_id : string) : string :=
  "session:" +:+ session_id +:+ ":events".

(** [_store_session_event] *)
Definition _store_session_event (session_id : string) (event_data : json) : M unit :=
  try_except
    (let key := events_key session_id in
     run lpush key (dumps event_data);
     run ltrim key 0 999;
     expire key 86400)
    (λ _, log WARNING "Failed to store session event").

(** [[json.loads(event) for event in events]] *)
Fixpoint loads_all (events : list text) : M (list json) :=
  match events with
  | [] => ret []
  | e :: es =>
      do v <- lift (loads e);
      do vs <- loads_all es;
      ret (v :: vs)
  end.

(** [_get_session_events] *)
Definition _get_session_events (session_id : string) (limit : Z) : M (list json) :=
  try_except
    (let key := events_key session_id in
     do events <- lrange key 0 (limit - 1);
     loads_all events)
    (λ _,
     run log WARNING "Failed to get session events";
     ret []).

Definition state_message (session_id : string) (events : list json) (count : Z) : json :=
  JDict (list_to_map
    [("type", JStr "session_state"); ("session_id", JStr session_id);
     ("events", JList events); ("user_count", JInt count)]).

(** [self.session_metadata.get(session_id, {}).get("user_count", 0)] *)
Definition known_count (m : Manager) (session_id : string) : Z :=
  match session_metadata m !! session_id with
  | Some meta => user_count meta
  | None => 0
  end.

(** [_send_session_state] *)
Definition _send_session_state (websocket : ws) (session_id : string) : M unit :=
  try_except
    (do events <- _get_session_events session_id 50;
     do σ <- get_world;
     ws_send websocket
       (dumps (state_message session_id events (known_count (self σ) session_id))))
    (λ _, log ERROR "Failed to send session state").

(** [{**data, "user_id": ..., "session_id": ..., "timestamp": ...}] *)
Definition enrich (data : gmap string json) (user_id session_id timestamp : string)
    : gmap string json :=
  <["timestamp" := JStr timestamp]>
    (<["session_id" := JStr session_id]>
       (<["user_id" := JStr user_id]> data)).

(** [_handle_user_message]; [timestamp] is the reading of the clock. *)
Definition _handle_user_message
    (session_id user_id : string) (data : json) (timestamp : string) : M unit :=
  do message_type <- dict_get data "type";
  match data with
  | JDict d =>
      let enriched_data := JDict (enrich d user_id session_id timestamp) in
      run _store_session_event session_id enriched_data;
      run _broadcast_to_session session_id enriched_data (JStr user_id);
      run publish channel (dumps enriched_data);
      log DEBUG "User message processed"
  | _ => raise TypeError
  end.

Definition presence_event (kind user_id timestamp : string) (count : Z) : json :=
  JDict (list_to_map
    [("type", JStr (event_types !!! kind)); ("user_id", JStr user_id);
     ("timestamp", JStr timestamp); ("user_count", JInt count)]).

(** Lines 81-89 of [handle_connection]: the registry mutation of a join.
    [now] is read only when the session entry is created. *)
Definition add_participant (websocket : ws) (session_id user_id now : string) : M unit :=
  do σ <- get_world;
  run match active_sessions (self σ) !! session_id with
      | Some _ => ret tt
      | None =>
          modify (with_self (λ m,
            set_metadata (<[session_id := mkMeta now 0]> (session_metadata m))
              (set_active (<[session_id := ∅]> (active_sessions m)) m)))
      end;
  do σ <- get_world;
  do users <- get_item (active_sessions (self σ)) session_id;
  run modify (with_self (λ m,
        set_active (<[session_id := <[user_id := websocket]> users]> (active_sessions m)) m));
  do σ <- get_world;
  do meta <- get_item (session_metadata (self σ)) session_id;
  modify (with_self (λ m,
    set_metadata
      (<[session_id := mkMeta (created_at meta) (user_count meta + 1)]> (session_metadata m)) m)).

(** Lines 127-129 of [_handle_user_disconnect]. *)
Definition remove_participant (session_id user_id : string) : M unit :=
  do σ <- get_world;
  do users <- get_item (active_sessions (self σ)) session_id;
  match users !! user_id with
  | None => ret tt
  | Some _ =>
      run modify (with_self (λ m,
            set_active (<[session_id := delete user_id users]> (active_sessions m)) m));
      do σ <- get_world;
      do meta <- get_item (session_metadata (self σ)) session_id;
      modify (with_self (λ m,
        set_metadata
          (<[session_id := mkMeta (created_at meta) (user_count meta - 1)]> (session_metadata m)) m))
  end.

(** Lines 140-143 of [_handle_user_disconnect]. *)
Definition cleanup_session (session_id : string) : M unit :=
  do σ <- get_world;
  do users <- get_item (active_sessions (self σ)) session_id;
  if bool_decide (users = ∅) then
    run modify (with_self (λ m, set_active (delete session_id (active_sessions m)) m));
    do σ <- get_world;
    run get_item (session_metadata (self σ)) session_id;
    run modify (with_self (λ m, set_metadata (delete session_id (session_metadata m)) m));
    log INFO "Session cleaned up"
  else ret tt.

(** Lines 127-143 of [_handle_user_disconnect], the body of
    [if session_id in self.active_sessions]. *)
Definition leave (session_id user_id now : string) : M unit :=
  run remove_participant session_id user_id;
  do σ <- get_world;
  do meta <- get_item (session_metadata (self σ)) session_id;
  run _broadcast_to_session session_id
        (presence_event "USER_LEAVE" user_id now (user_count meta)) JNull;
  cleanup_session session_id.

(** [_handle_user_disconnect]; [now] is the reading of the clock. *)
Definition _handle_user_disconnect (session_id user_id now : string) : M unit :=
  try_except
    (do σ <- get_world;
     run match active_sessions (self σ) !! session_id with
         | None => ret tt
         | Some _ => leave session_id user_id now
         end;
     log INFO "User disconnected")
    (λ _, log ERROR "Error handling user disconnect").

(** One turn of the receive loop of [handle_connection]: [message] is the
    frame, [now] the clock at that time. *)
Definition on_message (session_id user_id : string) (frame : text * string) : M unit :=
  let '(message, now) := frame in
  try_except
    (do data <- lift (loads message);
     _handle_user_message session_id user_id data now)
    (λ e, match e with
          | JSONDecodeError => log WARNING "Invalid JSON received"
          | _ => log ERROR "Error handling user message"
          end).

(** How the iteration over the websocket ends. *)
Inductive closure := CloseOK | CloseError.

(** Lines 79-103 of [handle_connection]: admission, join notification and
    the private [session_state] message. *)
Definition join (websocket : ws) (session_id user_id t_created t_join : string) : M unit :=
  run add_participant websocket session_id user_id t_created;
  do σ <- get_world;
  do meta <- get_item (session_metadata (self σ)) session_id;
  run _broadcast_to_session session_id
        (presence_event "USER_JOIN" user_id t_join (user_count meta)) (JStr user_id);
  run _send_session_state websocket session_id;
  log INFO "User joined collaboration session".

(** [handle_connection]. [user_id] is the fresh uuid, [inbound] the
    frames the client sends before the connection ends with [how]. *)
Definition handle_connection
    (websocket : ws) (session_id user_id t_created t_join : string)
    (inbound : list (text * string)) (how : closure) (t_leave : string) : M unit :=
  try_finally
    (try_except
       (run join websocket session_id user_id t_created t_join;
        run for_each inbound (on_message session_id user_id);
        match how with
        | CloseOK => ret tt
        | CloseError => raise ConnectionClosed
        end)
       (λ e, match e with
             | ConnectionClosed => log INFO "WebSocket connection closed"
             | _ => raise e
             end))
    (_handle_user_disconnect session_id user_id t_leave).

(** A message delivered by [self.pubsub.listen()]. *)
Record PubSubMessage := mkPubSubMessage {
  msg_type : string;
  msg_data : text
}.

(** One turn of the loop of [_handle_pubsub_messages]. *)
Definition on_pubsub_message (message : PubSubMessage) : M unit :=
  if String.eqb (msg_type message) "message" then
    try_except
      (do data <- lift (loads (msg_data message));
       do session_id <- dict_get data "session_id";
       do user_id <- dict_get data "user_id";
       do σ <- get_world;
       match session_id with
       | JStr sid =>
           match active_sessions (self σ) !! sid with
           | Some _ => _broadcast_to_session sid data user_id
           | None => ret tt
           end
       | JList _ | JDict _ => raise TypeError   (* unhashable key *)
       | _ => ret tt
       end)
      (λ e, match e with
            | JSONDecodeError => log WARNING "Invalid JSON in pubsub message"
            | _ => log ERROR "Error handling pubsub message"
            end)
  else ret tt.

(** [_handle_pubsub_messages] over the messages the subscription yields. *)
Definition _handle_pubsub_messages (messages : list PubSubMessage) : M unit :=
  try_except (for_each messages on_pubsub_message)
    (λ _, log ERROR "Error in pubsub message handler").

(** [f"session:{session_id}:metadata"] *)
Definition metadata_key (session_id : string) : string :=
  "session:" +:+ session_id +:+ ":metadata".

(** The string keys of the Redis server, each with its value and its time
    to live in seconds. They are threaded beside the world. *)
Abbreviation strings_store := (gmap string (text * Z)).

(** [SETEX key seconds value] *)
Definition setex (key : string) (seconds : Z) (value : text) (kv : strings_store)
    : M strings_store :=
  run redis_call (λ r, (tt, r));
  ret (<[key := (value, seconds)]> kv).

(** [GET key]: the value, or [None] when the key does not exist. *)
Definition redis_get (key : string) (kv : strings_store) : M (option text) :=
  run redis_call (λ r, (tt, r));
  ret (fst <$> kv !! key).

(** Truthiness of a [str]: only the empty string is false. *)
Definition text_truthy (t : text) : bool :=
  match t with
  | Encoded _ => true
  | Garbled raw => negb (String.eqb raw "")
  end.

Definition session_data (session_id now : string) : gmap string json :=
  list_to_map
    [("id", JStr session_id); ("created_at", JStr now); ("created_by", JStr "system")].

(** [create_session]; [session_id] is the fresh uuid, [now] the clock. *)
Definition create_session (session_id now : string) (kv : strings_store)
    : M (string * strings_store) :=
  do kv' <- setex (metadata_key session_id) 86400
              (dumps (JDict (session_data session_id now))) kv;
  run log INFO "New collaboration session created";
  ret (session_id, kv').

(** [session_info[key] = value] on a decoded JSON value. *)
Definition set_item (session_info : json) (key : string) (value : json) : M json :=
  match session_info with
  | JDict d => ret (JDict (<[key := value]> d))
  | _ => raise TypeError
  end.

(** [get_session_info] *)
Definition get_session_info (session_id : string) (kv : strings_store)
    : M (option json) :=
  try_except
    (do metadata <- redis_get (metadata_key session_id) kv;
     match metadata with
     | Some t =>
         if text_truthy t then
           do session_info <- lift (loads t);
           do σ <- get_world;
           do session_info <-
             set_item session_info "active_users"
               (JInt (Z.of_nat (size (default ∅ (active_sessions (self σ) !! session_id)))));
           do session_info <-
             set_item session_info "is_active"
               (JBool (bool_decide (is_Some (active_sessions (self σ) !! session_id))));
           ret (Some session_info)
         else ret None
     | None => ret None
     end)
    (λ _,
     run log WARNING "Failed to get session info";
     ret None).

(** The value built for one session by the loop of [get_active_sessions];
    [users] lists the ids in the order of the map (insertion order in
    Python). *)
Definition session_entry (md : gmap string Meta) (session_id : string)
    (users : gmap string ws) : json :=
  JDict (list_to_map
    [("user_count", JInt (Z.of_nat (size users)));
     ("created_at", match md !! session_id with
                    | Some meta => JStr (created_at meta)
                    | None => JNull
                    end);
     ("users", JList (JStr <$> (map_to_list users).*1))]).

(** [s["user_count"]] of an entry built by the loop. *)
Definition entry_count (s : json) : Z :=
  match s with
  | JDict d => match d !! "user_count" with
               | Some (JInt n) => n
               | _ => 0
               end
  | _ => 0
  end.

Definition directory (sessions : gmap string json) : json :=
  JDict (list_to_map
    [("total_sessions", JInt (Z.of_nat (size sessions)));
     ("total_users", JInt (map_fold (λ _ s total, entry_count s + total) 0 sessions));
     ("sessions", JDict sessions)]).

(** [get_active_sessions] *)
Definition get_active_sessions : M json :=
  do σ <- get_world;
  let sessions :=
    map_imap (λ session_id users,
                Some (session_entry (session_metadata (self σ)) session_id users))
             (active_sessions (self σ)) in
  ret (directory sessions).

(** ** Observations used in the statements *)

(** The world after the effects [tr] were appended to its trace. *)
Definition extend (tr : list effect) (σ : World) : World :=
  mkWorld (self σ) (broker σ) (links σ) (trace σ ++ tr).

(** The [websocket.send] calls of a trace, in order. *)
Definition sends (tr : list effect) : list (ws * text) :=
  omap (λ e, match e with
             | Send w m => Some (w, m)
             | Log _ _ => None
             end) tr.

(** The participants registered under a session on this process. *)
Definition participants (m : Manager) (session_id : string) : gmap string ws :=
  default ∅ (active_sessions m !! session_id).

(** The registry after the admission block ran for a participant. *)
Definition registered (w : ws) (sid uid now : string) (m : Manager) : Manager :=
  set_metadata
    (<[sid := mkMeta (default now (created_at <$> session_metadata m !! sid))
                     (Z.of_nat (size (participants m sid)) + 1)]> (session_metadata m))
    (set_active (<[sid := <[uid := w]> (participants m sid)]> (active_sessions m)) m).

(** The registry after the disconnect handler ran for a participant. *)
Definition unregistered (sid uid : string) (m : Manager) : Manager :=
  match active_sessions m !! sid with
  | None => m
  | Some users =>
      if bool_decide (delete uid users = ∅) then
        set_metadata (delete sid (session_metadata m))
          (set_active (delete sid (active_sessions m)) m)
      else
        set_metadata
          (<[sid := mkMeta (default ""%string (created_at <$> session_metadata m !! sid))
                           (Z.of_nat (size (delete uid users)))]> (session_metadata m))
          (set_active (<[sid := delete uid users]> (active_sessions m)) m)
  end.

(** One send of [message] for each entry of [users]. *)
Definition deliveries (users : gmap string ws) (message : text) : list (ws * text) :=
  (λ entry : string * ws, (entry.2, message)) <$> map_to_list users.


(** The enriched event of a client dictionary and its clock reading. *)
Definition accepted (session_id user_id : string) (msg : gmap string json * string) : json :=
  JDict (enrich msg.1 user_id session_id msg.2).

(** The value [get_session_info] returns for stored session data. *)
Definition reported_info (m : Manager) (session_id : string) (data : gmap string json) : json :=
  JDict (<["is_active" := JBool (bool_decide (is_Some (active_sessions m !! session_id)))]>
           (<["active_users" := JInt (Z.of_nat (size (participants m session_id)))]> data)).

(** The Redis client object exists and the server answers. *)
Definition broker_up (σ : World) : Prop :=
  redis_client (self σ) = true ∧ reachable (broker σ) = true.

(** The registry invariant: the two dictionaries have the same keys, no
    session entry is empty, and [user_count] is the number of entries. *)
Definition registry_inv (m : Manager) : Prop :=
  dom (session_metadata m) = dom (active_sessions m) ∧
  map_Forall (λ sid users,
      users ≠ ∅ ∧
      user_count <$> session_metadata m !! sid = Some (Z.of_nat (size users)))
    (active_sessions m).

#[global] Instance registry_inv_dec m : Decision (registry_inv m).
Proof. unfold registry_inv. apply _. Defined.

#[global] Instance broker_up_dec σ : Decision (broker_up σ).
Proof. unfold broker_up. apply _. Defined.

(** The client-to-server envelope of the interface description:
    [{"type": <event type>, ...payload fields}], a JSON object whose
    ["type"] is one of the enumerated event types. *)
Definition conforming (frame : text) : bool :=
  match frame with
  | Encoded (JDict d) =>
      match d !! "type" with
      | Some (JStr ty) => bool_decide (ty ∈ (map_to_list event_types).*2)
      | _ => false
      end
  | _ => false
  end.

(** What the receive loop itself rejects: text that does not parse, or a
    JSON value that is not an object. *)
Definition undecodable (frame : text) : bool :=
  match frame with
  | Encoded (JDict _) => false
  | _ => true
  end.

(** The list under a session's key after one more event was appended. *)
Definition appended (e : json) (l : list text) : list text :=
  take 1000 (dumps e :: l).

(** The Redis list of a session, newest entry first. *)
Definition history (σ : World) (sid : string) : list text :=
  default [] (lists (broker σ) !! events_key sid).

(** The world after one [_store_session_event] that reached the server. *)
Definition stored (sid : string) (e : json) (σ : World) : World :=
  with_broker (λ r,
    set_ttls (<[events_key sid := 86400]> (ttls r))
      (set_lists (<[events_key sid := appended e (default [] (lists r !! events_key sid))]>
                   (lists r)) r)) σ.

(** What [_get_session_events] returns in a world. *)
Definition replayed (σ : World) (sid : string) (limit : Z) : list json :=
  match (_get_session_events sid limit σ).1 with
  | Ok events => events
  | Raise _ => []
  end.

(** The log entry the receive loop writes for a frame it rejects. *)
Definition rejection (frame : text) : effect :=
  match frame with
  | Garbled _ => Log WARNING "Invalid JSON received"
  | Encoded _ => Log ERROR "Error handling user message"
  end.

(** ** Concrete worlds *)

(** A client event carrying only its type. *)
Definition ev (name : string) : json := JDict {[ "type" := JStr name ]}.

(** A started manager without sessions, in front of an empty broker. *)
Definition fresh_world : World :=
  mkWorld (mkManager true true true ∅ ∅) (mkRedis true ∅ ∅ []) ∅ [].

(** A manager that was not started, the broker being unreachable. *)
Definition offline_world : World :=
  mkWorld new_manager (mkRedis false ∅ ∅ []) ∅ [].

(** Session ["s"] with two participants, on open transports 1 and 2. *)
Definition lobby : World :=
  mkWorld
    (mkManager true true true
       {[ "s" := {[ "u1" := 1%nat; "u2" := 2%nat ]} ]}
       {[ "s" := mkMeta "t0" 2 ]})
    (mkRedis true ∅ ∅ []) ∅ [].

(** A started manager in front of a broker whose list for session ["s"]
    holds 60 events. *)
Definition busy_world : World :=
  mkWorld (mkManager true true true ∅ ∅)
    (mkRedis true {[ events_key "s" := dumps <$> replicate 60 (ev "A") ]}
       {[ events_key "s" := 86400 ]} [])
    ∅ [].

(** A started manager in front of a broker whose list for session ["s"]
    has an entry that is not JSON between two events. *)
Definition corrupt_world : World :=
  mkWorld (mkManager true true true ∅ ∅)
    (mkRedis true {[ events_key "s" := [dumps (ev "B"); Garbled "{"; dumps (ev "A")] ]}
       {[ events_key "s" := 86400 ]} [])
    ∅ [].

(** Two sessions: ["s"] with two participants and ["t"] with one. *)
Definition campus : World :=
  mkWorld
    (mkManager true true true
       {[ "s" := {[ "u1" := 1%nat; "u2" := 2%nat ]}; "t" := {[ "u3" := 3%nat ]} ]}
       {[ "s" := mkMeta "t0" 2; "t" := mkMeta "t1" 1 ]})
    (mkRedis true ∅ ∅ []) ∅ [].

(** What the subscription of this process receives when the broker
    delivers the publications [ps] back to it. *)
Definition echoes (ps : list (string * text)) : list PubSubMessage :=
  (λ p : string * text, mkPubSubMessage "message" p.2) <$> ps.

(** ** Running computations *)

Lemma extend_nil σ : extend [] σ = σ.
Proof. destruct σ. unfold extend. simpl. by rewrite app_nil_r. Qed.

Lemma extend_extend t1 t2 σ : extend t2 (extend t1 σ) = extend (t1 ++ t2) σ.
Proof. unfold extend. simpl. by rewrite app_assoc. Qed.

Lemma sends_app t1 t2 : sends (t1 ++ t2) = sends t1 ++ sends t2.
Proof. unfold sends. apply omap_app. Qed.

Lemma emit_run e σ : emit e σ = (Ok tt, extend [e] σ).
Proof. reflexivity. Qed.

Lemma log_run lv s σ : log lv s σ = (Ok tt, extend [Log lv s] σ).
Proof. reflexivity. Qed.

Lemma bind_run {A B} (m : M A) (k : A → M B) σ a σ' :
  m σ = (Ok a, σ') → bind m k σ = k a σ'.
Proof. intros H. unfold bind. by rewrite H. Qed.

Lemma bind_raise {A B} (m : M A) (k : A → M B) σ e σ' :
  m σ = (Raise e, σ') → bind m k σ = (Raise e, σ').
Proof. intros H. unfold bind. by rewrite H. Qed.

Lemma try_except_ok {A} (m : M A) h σ a σ' :
  m σ = (Ok a, σ') → try_except m h σ = (Ok a, σ').
Proof. intros H. unfold try_except. by rewrite H. Qed.

Lemma try_except_raise {A} (m : M A) h σ e σ' :
  m σ = (Raise e, σ') → try_except m h σ = h e σ'.
Proof. intros H. unfold try_except. by rewrite H. Qed.

Lemma safe_send_run w m σ :
  ∃ tr, _safe_send w m σ = (Ok tt, extend tr σ) ∧ sends tr = [(w, m)].
Proof.
  unfold _safe_send, ws_send, try_except, bind, get_world.
  rewrite emit_run. simpl.
  unfold link_of. simpl.
  destruct (default Up (links σ !! w)); simpl.
  - by exists [Send w m].
  - by exists [Send w m].
  - rewrite log_run, extend_extend. by eexists.
Qed.

Lemma gather_run message (to_send : list ws) σ :
  ∃ tr, gather (map (λ w, _safe_send w message) to_send) σ = (Ok tt, extend tr σ) ∧
        sends tr = (λ w, (w, message)) <$> to_send.
Proof.
  revert σ. induction to_send as [|w rest IH]; intros σ; simpl.
  - exists []. by rewrite extend_nil.
  - destruct (safe_send_run w message σ) as (t1 & H1 & S1).
    destruct (IH (extend t1 σ)) as (t2 & H2 & S2).
    exists (t1 ++ t2). split.
    + erewrite bind_run; [|by erewrite try_except_ok].
      by rewrite H2, extend_extend.
    + by rewrite sends_app, S1, S2.
Qed.

Lemma broadcast_run session_id data exclude_user σ :
  ∃ tr, _broadcast_to_session session_id data exclude_user σ = (Ok tt, extend tr σ) ∧
        sends tr = (λ w, (w, dumps data)) <$>
                     websockets_to_send (participants (self σ) session_id) exclude_user.
Proof.
  unfold _broadcast_to_session, participants, bind, get_world.
  destruct (active_sessions (self σ) !! session_id) as [users|]; simpl.
  - destruct (websockets_to_send users exclude_user) as [|w rest] eqn:E.
    + exists []. by rewrite extend_nil.
    + apply (gather_run (dumps data) (w :: rest)).
  - exists []. rewrite extend_nil. split; [done|].
    unfold websockets_to_send. by rewrite map_to_list_empty.
Qed.

(** ** The local broadcaster *)

Lemma deliveries_fmap users message :
  deliveries users message = (λ w, (w, message)) <$> (map_to_list users).*2.
Proof. unfold deliveries. by rewrite <- list_fmap_compose. Qed.

Lemma websockets_to_send_all users exclude_user :
  (∀ uid, truthy exclude_user && str_eq uid exclude_user = false) →
  websockets_to_send users exclude_user = (map_to_list users).*2.
Proof.
  intros Hno. unfold websockets_to_send.
  induction (map_to_list users) as [|[uid w] l IH]; [done|].
  cbn [omap list_omap fmap list_fmap snd]. rewrite Hno. f_equal. exact IH.
Qed.

Lemma websockets_to_send_excluding users P :
  P ≠ "" →
  websockets_to_send users (JStr P) ≡ₚ (map_to_list (delete P users)).*2.
Proof.
  intros HP. unfold websockets_to_send.
  assert (truthy (JStr P) = true) as Ht.
  { simpl. by destruct (String.eqb_spec P ""). }
  rewrite Ht. simpl.
  induction users as [|uid w users Hfresh IH] using map_ind.
  - by rewrite delete_empty, map_to_list_empty.
  - rewrite (map_to_list_insert users uid w Hfresh). simpl.
    destruct (String.eqb_spec uid P) as [->|Hne].
    + rewrite delete_insert_eq, (delete_id users P Hfresh).
      rewrite (delete_id users P Hfresh) in IH. exact IH.
    + rewrite delete_insert_ne by congruence.
      rewrite map_to_list_insert by (by rewrite lookup_delete_ne).
      simpl. by rewrite IH.
Qed.

(** C5. Broadcasting an event with [exclude_user = P], for a participant
    [P] registered under the session (ids are uuid strings, hence not
    empty), returns normally and calls [send] with the encoded event once
    for every participant registered under the session other than [P]:
    each of them gets it, and no send goes to the entry of [P]. *)
Theorem broadcast_excludes_participant σ session_id event P (w : ws) :
  participants (self σ) session_id !! P = Some w →
  P ≠ "" →
  ∃ tr,
    _broadcast_to_session session_id event (JStr P) σ = (Ok tt, extend tr σ) ∧
    sends tr ≡ₚ deliveries (delete P (participants (self σ) session_id)) (dumps event) ∧
    (∀ uid w', participants (self σ) session_id !! uid = Some w' → uid ≠ P →
               (w', dumps event) ∈ sends tr) ∧
    (∀ w' m, (w', m) ∈ sends tr →
             m = dumps event ∧
             ∃ uid, uid ≠ P ∧ participants (self σ) session_id !! uid = Some w').
Proof.
  intros _ HP.
  destruct (broadcast_run session_id event (JStr P) σ) as (tr & Hrun & Hs).
  set (users := participants (self σ) session_id) in *.
  assert (sends tr ≡ₚ deliveries (delete P users) (dumps event)) as Hperm.
  { rewrite Hs, deliveries_fmap. by rewrite (websockets_to_send_excluding users P HP). }
  exists tr. split_and!; [done|done|..].
  - intros uid w' Hreg Hne. rewrite Hperm. unfold deliveries.
    apply (list_elem_of_fmap_2 (λ entry : string * ws, (entry.2, dumps event)) _ (uid, w')).
    apply elem_of_map_to_list. by rewrite lookup_delete_ne.
  - intros w' m Hin. rewrite Hperm in Hin. unfold deliveries in Hin.
    apply list_elem_of_fmap in Hin as ([uid w''] & Heq & Hin). simpl in Heq.
    injection Heq as -> ->. split; [done|].
    apply elem_of_map_to_list in Hin.
    exists uid. destruct (decide (uid = P)) as [->|Hne].
    + by rewrite lookup_delete_eq in Hin.
    + by rewrite lookup_delete_ne in Hin.
Qed.

(** ** The session registry *)

Ltac unfold_coro :=
  unfold bind, try_except, get_world, get_item, modify, ret, raise, lift,
    with_self, with_broker, with_trace, set_active, set_metadata,
    set_lists, set_ttls, set_published.

Lemma registry_inv_lookup m sid users :
  registry_inv m → active_sessions m !! sid = Some users →
  users ≠ ∅ ∧ ∃ meta, session_metadata m !! sid = Some meta ∧
                      user_count meta = Z.of_nat (size users).
Proof.
  intros [_ Hall] Hsid. destruct (Hall sid users Hsid) as [Hne Hcount].
  split; [done|]. destruct (session_metadata m !! sid) as [meta|]; [|done].
  exists meta. split; [done|]. simpl in Hcount. congruence.
Qed.

Lemma registry_inv_absent m sid :
  registry_inv m → active_sessions m !! sid = None → session_metadata m !! sid = None.
Proof.
  intros [Hdom _] Hsid. apply not_elem_of_dom. rewrite Hdom. by apply not_elem_of_dom.
Qed.

Lemma add_participant_run σ w sid uid now :
  registry_inv (self σ) →
  add_participant w sid uid now σ =
    (Ok tt,
     with_self (λ m,
       set_metadata
         (<[sid := mkMeta (default now (created_at <$> session_metadata m !! sid))
                          (Z.of_nat (size (participants m sid)) + 1)]> (session_metadata m))
         (set_active (<[sid := <[uid := w]> (participants m sid)]> (active_sessions m)) m)) σ).
Proof.
  intros Hinv. destruct σ as [[rc ps ls act md] br lk tr].
  unfold add_participant, participants. unfold_coro. simpl in *.
  destruct (act !! sid) as [users|] eqn:Hsid; simpl.
  - destruct (registry_inv_lookup _ _ _ Hinv Hsid) as (_ & meta & Hmeta & Hcount).
    simpl in *. rewrite Hsid. simpl. rewrite !Hmeta. simpl. rewrite Hcount. reflexivity.
  - pose proof (registry_inv_absent _ _ Hinv Hsid) as Hmd. simpl in Hmd.
    rewrite ?Hsid, ?Hmd, ?lookup_insert_eq. simpl.
    rewrite ?lookup_insert_eq. simpl.
    rewrite !insert_insert_eq, map_size_empty. reflexivity.
Qed.

Lemma add_participant_preserves m w sid uid now :
  registry_inv m →
  participants m sid !! uid = None →
  registry_inv
    (set_metadata
       (<[sid := mkMeta (default now (created_at <$> session_metadata m !! sid))
                        (Z.of_nat (size (participants m sid)) + 1)]> (session_metadata m))
       (set_active (<[sid := <[uid := w]> (participants m sid)]> (active_sessions m)) m)).
Proof.
  intros Hinv Hfresh. split; simpl.
  - rewrite !dom_insert_L. by rewrite (proj1 Hinv).
  - apply map_Forall_lookup. intros sid' users' Hsid'.
    destruct (decide (sid = sid')) as [<-|Hne].
    + rewrite lookup_insert_eq in Hsid'. injection Hsid' as <-.
      rewrite lookup_insert_eq. simpl. split; [apply insert_non_empty|].
      rewrite map_size_insert_None by done. f_equal. lia.
    + rewrite lookup_insert_ne in Hsid' by done. rewrite lookup_insert_ne by done.
      exact (proj2 Hinv sid' users' Hsid').
Qed.

Lemma with_self_extend f tr σ : with_self f (extend tr σ) = extend tr (with_self f σ).
Proof. reflexivity. Qed.

Lemma remove_participant_run σ sid uid users :
  registry_inv (self σ) →
  active_sessions (self σ) !! sid = Some users →
  remove_participant sid uid σ =
    (Ok tt,
     with_self (λ m,
       set_metadata
         (<[sid := mkMeta (default ""%string (created_at <$> session_metadata m !! sid))
                          (Z.of_nat (size (delete uid users)))]> (session_metadata m))
         (set_active (<[sid := delete uid users]> (active_sessions m)) m)) σ).
Proof.
  intros Hinv Hsid. destruct σ as [[rc ps ls act md] br lk tr].
  destruct (registry_inv_lookup _ _ _ Hinv Hsid) as (_ & meta & Hmeta & Hcount).
  unfold remove_participant. unfold_coro. simpl in *. rewrite Hsid. simpl.
  destruct (users !! uid) as [w|] eqn:Huid; simpl.
  - rewrite Hmeta. simpl. rewrite Hcount.
    rewrite map_size_delete_Some by done.
    assert (size users ≠ 0%nat) as Hpos.
    { apply map_size_non_empty_iff. intros ->. by rewrite lookup_empty in Huid. }
    repeat f_equal. lia.
  - rewrite Hmeta. simpl. rewrite (delete_id _ _ Huid), <- Hcount.
    rewrite (insert_id act sid users Hsid).
    rewrite (insert_id md sid) by (by destruct meta).
    reflexivity.
Qed.

Lemma cleanup_session_empty σ sid :
  active_sessions (self σ) !! sid = Some ∅ →
  is_Some (session_metadata (self σ) !! sid) →
  cleanup_session sid σ =
    (Ok tt,
     extend [Log INFO "Session cleaned up"]
       (with_self (λ m, set_metadata (delete sid (session_metadata m))
                          (set_active (delete sid (active_sessions m)) m)) σ)).
Proof.
  intros Hsid [meta Hmeta]. destruct σ as [[rc ps ls act md] br lk tr].
  unfold cleanup_session, log, emit, extend. unfold_coro. simpl in *.
  rewrite Hsid. simpl. rewrite bool_decide_eq_true_2 by done.
  simpl. rewrite Hmeta. reflexivity.
Qed.

Lemma cleanup_session_nonempty σ sid users :
  active_sessions (self σ) !! sid = Some users →
  users ≠ ∅ →
  cleanup_session sid σ = (Ok tt, σ).
Proof.
  intros Hsid Hne. unfold cleanup_session. unfold_coro. rewrite Hsid.
  by rewrite bool_decide_eq_false_2.
Qed.

Lemma with_self_id σ : with_self (λ _, self σ) σ = σ.
Proof. by destruct σ. Qed.

Lemma participants_absent m sid :
  active_sessions m !! sid = None → participants m sid = ∅.
Proof. unfold participants. by intros ->. Qed.

Lemma participants_present m sid users :
  active_sessions m !! sid = Some users → participants m sid = users.
Proof. unfold participants. by intros ->. Qed.

Lemma deliveries_empty message : deliveries ∅ message = [].
Proof. unfold deliveries. by rewrite map_to_list_empty. Qed.

Lemma truthy_null_no_exclusion uid : truthy JNull && str_eq uid JNull = false.
Proof. reflexivity. Qed.

Lemma leave_run σ sid uid now users :
  registry_inv (self σ) →
  active_sessions (self σ) !! sid = Some users →
  ∃ tr m',
    leave sid uid now σ = (Ok tt, extend tr (with_self (λ _, m') σ)) ∧
    registry_inv m' ∧
    participants m' sid = delete uid users ∧
    (∀ sid', sid' ≠ sid → participants m' sid' = participants (self σ) sid') ∧
    sends tr =
      deliveries (delete uid users)
        (dumps (presence_event "USER_LEAVE" uid now (Z.of_nat (size (delete uid users))))).
Proof.
  intros Hinv Hsid.
  destruct (registry_inv_lookup _ _ _ Hinv Hsid) as (Hne & meta & Hmeta & Hcount).
  set (users' := delete uid users).
  set (event := presence_event "USER_LEAVE" uid now (Z.of_nat (size users'))).
  set (m1 := set_metadata
               (<[sid := mkMeta (created_at meta) (Z.of_nat (size users'))]>
                  (session_metadata (self σ)))
               (set_active (<[sid := users']> (active_sessions (self σ))) (self σ))).
  assert (remove_participant sid uid σ = (Ok tt, with_self (λ _, m1) σ)) as Hrm.
  { rewrite (remove_participant_run _ _ _ _ Hinv Hsid). unfold m1, with_self.
    by rewrite Hmeta. }
  destruct (broadcast_run sid event JNull (with_self (λ _, m1) σ)) as (tr & Hbc & Hs).
  assert (participants m1 sid = users') as Hp1.
  { unfold participants, m1. simpl. by rewrite lookup_insert_eq. }
  simpl in Hs. rewrite Hp1, websockets_to_send_all in Hs by apply truthy_null_no_exclusion.
  rewrite <- deliveries_fmap in Hs.
  assert (leave sid uid now σ = cleanup_session sid (extend tr (with_self (λ _, m1) σ)))
    as Hpre.
  { unfold leave. erewrite bind_run by exact Hrm.
    unfold bind at 1. unfold get_world at 1. simpl.
    unfold bind at 1. unfold get_item at 1. simpl. rewrite lookup_insert_eq.
    unfold ret at 1. simpl. fold event. by erewrite bind_run by exact Hbc. }
  rewrite Hpre.
  destruct (decide (users' = ∅)) as [Hempty|Hnonempty].
  - exists (tr ++ [Log INFO "Session cleaned up"]).
    exists (set_metadata (delete sid (session_metadata (self σ)))
              (set_active (delete sid (active_sessions (self σ))) (self σ))).
    split_and!.
    + rewrite cleanup_session_empty.
      * unfold extend, with_self, m1, set_metadata, set_active. simpl.
        rewrite !delete_insert_eq, <- !app_assoc. reflexivity.
      * simpl. by rewrite lookup_insert_eq, Hempty.
      * simpl. by rewrite lookup_insert_eq.
    + split; simpl.
      * rewrite !dom_delete_L. by rewrite (proj1 Hinv).
      * apply map_Forall_lookup. intros sid' users'' Hsid'.
        apply lookup_delete_Some in Hsid' as [Hneq Hsid'].
        rewrite lookup_delete_ne by done.
        exact (proj2 Hinv sid' users'' Hsid').
    + unfold participants. simpl. by rewrite lookup_delete_eq.
    + intros sid' Hneq. unfold participants. simpl. by rewrite lookup_delete_ne.
    + by rewrite sends_app, Hs, app_nil_r.
  - exists tr, m1.
    split_and!.
    + eapply cleanup_session_nonempty; [|exact Hnonempty].
      simpl. by rewrite lookup_insert_eq.
    + split; simpl.
      * rewrite !dom_insert_L. by rewrite (proj1 Hinv).
      * apply map_Forall_lookup. intros sid' users'' Hsid'.
        destruct (decide (sid = sid')) as [<-|Hneq].
        -- rewrite lookup_insert_eq in Hsid'. injection Hsid' as <-.
           by rewrite lookup_insert_eq.
        -- rewrite lookup_insert_ne in Hsid' by done. rewrite lookup_insert_ne by done.
           exact (proj2 Hinv sid' users'' Hsid').
    + exact Hp1.
    + intros sid' Hneq. unfold participants, m1. simpl. by rewrite lookup_insert_ne.
    + exact Hs.
Qed.

Lemma disconnect_run σ sid uid now :
  registry_inv (self σ) →
  ∃ tr m',
    _handle_user_disconnect sid uid now σ = (Ok tt, extend tr (with_self (λ _, m') σ)) ∧
    registry_inv m' ∧
    participants m' sid = delete uid (participants (self σ) sid) ∧
    (∀ sid', sid' ≠ sid → participants m' sid' = participants (self σ) sid') ∧
    sends tr =
      deliveries (delete uid (participants (self σ) sid))
        (dumps (presence_event "USER_LEAVE" uid now
                  (Z.of_nat (size (delete uid (participants (self σ) sid)))))).
Proof.
  intros Hinv. unfold _handle_user_disconnect.
  destruct (active_sessions (self σ) !! sid) as [users|] eqn:Hsid.
  - rewrite (participants_present _ _ _ Hsid).
    destruct (leave_run σ sid uid now users Hinv Hsid) as (tr & m' & Hrun & Hinv' & Hp & Ho & Hs).
    exists (tr ++ [Log INFO "User disconnected"]), m'.
    split_and!; try done.
    + erewrite try_except_ok; [done|].
      unfold bind at 1. unfold get_world at 1. simpl. rewrite Hsid.
      erewrite bind_run by exact Hrun.
      by rewrite log_run, extend_extend.
    + by rewrite sends_app, Hs, app_nil_r.
  - exists [Log INFO "User disconnected"], (self σ).
    rewrite (participants_absent _ _ Hsid), delete_empty, deliveries_empty, with_self_id.
    split_and!; try done.
    erewrite try_except_ok; [done|].
    unfold bind at 1. unfold get_world at 1. simpl. rewrite Hsid.
    reflexivity.
Qed.

Lemma new_manager_inv : registry_inv new_manager.
Proof. split; [done|]. apply map_Forall_empty. Qed.

(** What the invariant says, in the words of the registry contract. *)
Lemma registry_inv_meaning m :
  registry_inv m →
  (∀ sid, is_Some (active_sessions m !! sid) ↔ ∃ uid w, participants m sid !! uid = Some w) ∧
  (∀ sid, is_Some (session_metadata m !! sid) ↔ is_Some (active_sessions m !! sid)) ∧
  (∀ sid meta, session_metadata m !! sid = Some meta →
               user_count meta = Z.of_nat (size (participants m sid))).
Proof.
  intros Hinv. split_and!.
  - intros sid. split.
    + intros [users Hsid]. rewrite (participants_present _ _ _ Hsid).
      destruct (registry_inv_lookup _ _ _ Hinv Hsid) as [Hne _].
      by apply map_choose.
    + intros (uid & w & Hreg). unfold participants in Hreg.
      destruct (active_sessions m !! sid); [done|].
      simpl in Hreg. by rewrite lookup_empty in Hreg.
  - intros sid. rewrite <- !elem_of_dom. by rewrite (proj1 Hinv).
  - intros sid meta Hmeta.
    destruct (active_sessions m !! sid) as [users|] eqn:Hsid.
    + destruct (registry_inv_lookup _ _ _ Hinv Hsid) as (_ & meta' & Hmeta' & Hcount).
      rewrite (participants_present _ _ _ Hsid). congruence.
    + rewrite (registry_inv_absent _ _ Hinv Hsid) in Hmeta. done.
Qed.

(** C7. The registry invariant (a session entry exists exactly when it
    has a participant, and [user_count] is the number of registered
    participants) is preserved by the admission of a connection under a
    fresh participant id and by the disconnect handler; both return
    normally, the first adds the participant, the second removes it. *)
Theorem registry_invariant_preserved σ :
  registry_inv (self σ) →
  (∀ w sid uid now,
     participants (self σ) sid !! uid = None →
     ∃ σ', add_participant w sid uid now σ = (Ok tt, σ') ∧
           registry_inv (self σ') ∧
           participants (self σ') sid = <[uid := w]> (participants (self σ) sid)) ∧
  (∀ sid uid now,
     ∃ σ', _handle_user_disconnect sid uid now σ = (Ok tt, σ') ∧
           registry_inv (self σ') ∧
           participants (self σ') sid = delete uid (participants (self σ) sid)).
Proof.
  intros Hinv. split.
  - intros w sid uid now Hfresh. eexists. split; [by apply add_participant_run|].
    split.
    + by apply add_participant_preserves.
    + unfold participants at 1. simpl. by rewrite lookup_insert_eq.
  - intros sid uid now.
    destruct (disconnect_run σ sid uid now Hinv) as (tr & m' & Hrun & Hinv' & Hp & _).
    eexists. split; [exact Hrun|]. done.
Qed.

(** ** The suspension point of the disconnect handler

    [_handle_user_disconnect] awaits the broadcast between the removal of
    the participant and the cleanup of the session. The broadcast suspends
    only when it has someone to send to; the registry it leaves to the
    other tasks then satisfies the invariant, and the cleanup that runs on
    resumption changes nothing in a registry that satisfies it. *)

Lemma remove_participant_suspended σ sid uid users :
  registry_inv (self σ) →
  active_sessions (self σ) !! sid = Some users →
  websockets_to_send (delete uid users) JNull ≠ [] →
  registry_inv (self (remove_participant sid uid σ).2).
Proof.
  intros Hinv Hsid Hsome.
  rewrite (remove_participant_run σ sid uid users Hinv Hsid). simpl.
  assert (delete uid users ≠ ∅) as Hne.
  { intros Hempty. apply Hsome. rewrite Hempty.
    unfold websockets_to_send. by rewrite map_to_list_empty. }
  split; simpl.
  - rewrite !dom_insert_L. by rewrite (proj1 Hinv).
  - apply map_Forall_lookup. intros sid' users' Hsid'.
    destruct (decide (sid = sid')) as [<-|Hneq].
    + rewrite lookup_insert_eq in Hsid'. injection Hsid' as <-.
      by rewrite lookup_insert_eq.
    + rewrite lookup_insert_ne in Hsid' by done. rewrite lookup_insert_ne by done.
      exact (proj2 Hinv sid' users' Hsid').
Qed.

Lemma cleanup_session_resumed σ sid :
  registry_inv (self σ) →
  self (cleanup_session sid σ).2 = self σ.
Proof.
  intros Hinv.
  destruct (active_sessions (self σ) !! sid) as [users|] eqn:Hsid.
  - destruct (registry_inv_lookup _ _ _ Hinv Hsid) as [Hne _].
    by rewrite (cleanup_session_nonempty σ sid users Hsid Hne).
  - unfold cleanup_session. unfold_coro. simpl. by rewrite Hsid.
Qed.

(** ** The event history store *)

Lemma redis_range_prefix {A} (l : list A) (stop : Z) :
  0 ≤ stop → redis_range l 0 stop = take (Z.to_nat (stop + 1)) l.
Proof.
  intros Hstop. unfold redis_range. cbv zeta.
  assert ((stop <? 0) = false) as -> by lia.
  change (0 <? 0) with false. cbv iota.
  change (0 <? 0) with false. cbv iota.
  assert ((stop <? 0) = false) as -> by lia.
  rewrite orb_false_l, drop_0, Z.sub_0_r.
  destruct (Z.leb_spec (Z.of_nat (length l)) 0) as [Hlen|Hlen].
  - destruct l; [by rewrite take_nil|simpl in Hlen; lia].
  - destruct (Z.leb_spec (Z.of_nat (length l)) stop) as [Hlong|Hshort]; [|done].
    by rewrite !take_ge by lia.
Qed.

Lemma with_broker_id σ : with_broker (λ _, broker σ) σ = σ.
Proof. by destruct σ. Qed.

Lemma redis_call_run {A} (cmd : Redis → A * Redis) σ :
  broker_up σ →
  redis_call cmd σ = (Ok (cmd (broker σ)).1, with_broker (λ _, (cmd (broker σ)).2) σ).
Proof.
  intros [Hclient Hreach]. unfold redis_call. unfold_coro. simpl.
  rewrite Hclient, Hreach. simpl. by destruct (cmd (broker σ)).
Qed.

Lemma redis_call_down {A} (cmd : Redis → A * Redis) σ :
  ¬ broker_up σ →
  ∃ e, redis_call cmd σ = (Raise e, σ) ∧ (e = AttributeError ∨ e = RedisConnectionError).
Proof.
  intros Hdown. unfold redis_call. unfold_coro. simpl.
  destruct (redis_client (self σ)) eqn:Hclient; simpl; [|eauto].
  destruct (reachable (broker σ)) eqn:Hreach; simpl; [|eauto].
  by destruct Hdown.
Qed.

Lemma store_run σ sid e :
  broker_up σ →
  _store_session_event sid e σ = (Ok tt, stored sid e σ).
Proof.
  intros [Hc Hr]. destruct σ as [[rc ps ls act md] [re li tt pu] lk tr].
  simpl in Hc, Hr. subst rc re.
  unfold _store_session_event, lpush, ltrim, expire, redis_call, stored, appended.
  unfold_coro. simpl.
  rewrite lookup_insert_eq, redis_range_prefix by lia. simpl.
  rewrite lookup_insert_eq, insert_insert_eq. reflexivity.
Qed.

Lemma loads_all_dumps (vs : list json) σ : loads_all (dumps <$> vs) σ = (Ok vs, σ).
Proof.
  revert σ. induction vs as [|v vs IH]; intros σ; [done|].
  cbn [fmap list_fmap loads_all]. unfold bind at 1. simpl.
  unfold bind at 1. fold (fmap (M:=list) dumps vs). rewrite IH. done.
Qed.

Lemma loads_all_frame (ts : list text) σ :
  ∃ r, loads_all ts σ = (r, σ) ∧
       match r with Ok vs => length vs = length ts | Raise _ => True end.
Proof.
  induction ts as [|t ts (r & IH & Hlen)]; [by exists (Ok [])|].
  simpl. unfold_coro. destruct t as [v|raw]; simpl.
  - rewrite IH. destruct r as [vs|e]; eexists; (split; [done|]); simpl; [|done].
    by rewrite Hlen.
  - by exists (Raise JSONDecodeError).
Qed.

Lemma get_session_events_run σ sid limit :
  ∃ tr, _get_session_events sid limit σ = (Ok (replayed σ sid limit), extend tr σ) ∧
        sends tr = [].
Proof.
  unfold replayed, _get_session_events, lrange. cbv zeta.
  destruct (decide (broker_up σ)) as [Hup|Hdown].
  - unfold try_except, bind at 1 3. rewrite redis_call_run by done. simpl.
    rewrite with_broker_id.
    destruct (loads_all_frame (redis_range (default [] (lists (broker σ) !! events_key sid)) 0 (limit - 1)) σ)
      as (r & -> & _).
    destruct r as [vs|e]; simpl.
    + exists []. by rewrite extend_nil.
    + unfold bind. rewrite log_run. by eexists.
  - unfold try_except, bind at 1 3.
    destruct (redis_call_down (λ r, (redis_range (default [] (lists r !! events_key sid)) 0 (limit - 1), r)) σ Hdown)
      as (e & -> & _).
    simpl. unfold bind. rewrite log_run. by eexists.
Qed.

Lemma replayed_up σ sid limit (stored : list json) :
  broker_up σ →
  history σ sid = dumps <$> stored →
  0 < limit →
  replayed σ sid limit = take (Z.to_nat limit) stored.
Proof.
  intros Hup Hstored Hlimit. unfold replayed, _get_session_events, lrange. cbv zeta.
  unfold try_except, bind. rewrite redis_call_run by done. simpl.
  fold (history σ sid). rewrite Hstored, with_broker_id.
  rewrite redis_range_prefix by lia. replace (limit - 1 + 1) with limit by lia.
  rewrite <- fmap_take, loads_all_dumps. done.
Qed.

Lemma replayed_length σ sid limit :
  0 < limit → (length (replayed σ sid limit) ≤ Z.to_nat limit)%nat.
Proof.
  intros Hlimit. unfold replayed, _get_session_events, lrange. cbv zeta.
  destruct (decide (broker_up σ)) as [Hup|Hdown].
  - unfold try_except, bind. rewrite redis_call_run by done. simpl.
    rewrite with_broker_id.
    destruct (loads_all_frame (redis_range (default [] (lists (broker σ) !! events_key sid)) 0 (limit - 1)) σ)
      as (r & -> & Hlen).
    destruct r as [vs|e]; simpl; [|lia].
    rewrite Hlen, redis_range_prefix by lia. rewrite length_take. lia.
  - unfold try_except, bind.
    destruct (redis_call_down (λ r, (redis_range (default [] (lists r !! events_key sid)) 0 (limit - 1), r)) σ Hdown)
      as (e & -> & _).
    simpl. lia.
Qed.

Lemma stored_up sid e σ : broker_up σ → broker_up (stored sid e σ).
Proof. intros [? ?]. by split. Qed.

Lemma history_stored sid e σ : history (stored sid e σ) sid = appended e (history σ sid).
Proof. unfold history, stored. simpl. by rewrite lookup_insert_eq. Qed.

Lemma appends_run sid (es : list json) σ :
  broker_up σ →
  for_each es (_store_session_event sid) σ = (Ok tt, foldl (λ σ e, stored sid e σ) σ es).
Proof.
  revert σ. induction es as [|e es IH]; intros σ Hup; [done|].
  simpl. erewrite bind_run by (by apply store_run).
  apply IH. by apply stored_up.
Qed.

Lemma appends_up sid (es : list json) σ :
  broker_up σ → broker_up (foldl (λ σ e, stored sid e σ) σ es).
Proof.
  revert σ. induction es as [|e es IH]; intros σ Hup; [done|].
  simpl. apply IH. by apply stored_up.
Qed.

Lemma appends_self sid (es : list json) σ :
  self (foldl (λ σ e, stored sid e σ) σ es) = self σ.
Proof. revert σ. induction es as [|e es IH]; intros σ; [done|]. simpl. by rewrite IH. Qed.

Lemma appends_history sid (es : list json) σ :
  history (foldl (λ σ e, stored sid e σ) σ es) sid =
  foldl (λ l e, appended e l) (history σ sid) es.
Proof.
  revert σ. induction es as [|e es IH]; intros σ; [done|].
  simpl. by rewrite IH, history_stored.
Qed.

Lemma appended_take e l : appended e (take 1000 l) = appended e l.
Proof.
  unfold appended. change 1000%nat with (S 999). simpl.
  by rewrite take_take, Nat.min_l by lia.
Qed.

Lemma foldl_appended (es : list json) (l0 : list text) :
  es ≠ [] →
  foldl (λ l e, appended e l) l0 es = take 1000 (reverse (dumps <$> es) ++ l0).
Proof.
  induction es as [|e es IH] using rev_ind; [done|]. intros _.
  rewrite foldl_app, fmap_app, reverse_app. simpl.
  destruct es as [|e' es'].
  - reflexivity.
  - rewrite IH by done. by rewrite appended_take.
Qed.

Lemma latest_1000 (es : list json) (l0 : list text) :
  (1000 < length es)%nat →
  take 1000 (reverse (dumps <$> es) ++ l0) = dumps <$> take 1000 (reverse es).
Proof.
  intros Hlen. rewrite take_app_le by (rewrite length_reverse, length_fmap; lia).
  by rewrite fmap_take, fmap_reverse.
Qed.

Lemma get_session_events_up σ sid limit (old : list json) :
  broker_up σ →
  history σ sid = dumps <$> old →
  0 < limit →
  _get_session_events sid limit σ = (Ok (take (Z.to_nat limit) old), σ).
Proof.
  intros Hup Hold Hlimit. unfold _get_session_events, lrange. cbv zeta.
  apply try_except_ok. unfold bind. rewrite redis_call_run by done. simpl.
  fold (history σ sid). rewrite Hold, with_broker_id.
  rewrite redis_range_prefix by lia. replace (limit - 1 + 1) with limit by lia.
  by rewrite <- fmap_take, loads_all_dumps.
Qed.

(** C6. With the broker available: every append leaves, under the
    session's key, the new entry followed by the previous list cut to 1000
    entries in all, so the oldest entries are the ones dropped; and after
    more than 1000 appends, [_get_session_events] with limit 1000 returns
    exactly the 1000 most recently appended events, newest first. *)
Theorem history_keeps_latest_1000 σ sid :
  broker_up σ →
  (∀ e, ∃ σ', _store_session_event sid e σ = (Ok tt, σ') ∧
              history σ' sid = take 1000 (dumps e :: history σ sid) ∧
              (length (history σ' sid) ≤ 1000)%nat) ∧
  (∀ es : list json,
     (1000 < length es)%nat →
     ∃ σ', for_each es (_store_session_event sid) σ = (Ok tt, σ') ∧
           history σ' sid = dumps <$> take 1000 (reverse es) ∧
           _get_session_events sid 1000 σ' = (Ok (take 1000 (reverse es)), σ')).
Proof.
  intros Hup. split.
  - intros e. exists (stored sid e σ). split; [by apply store_run|].
    rewrite history_stored. split; [done|].
    unfold appended. rewrite length_take. lia.
  - intros es Hlen. eexists. split; [by apply appends_run|].
    assert (history (foldl (λ σ e, stored sid e σ) σ es) sid
            = dumps <$> take 1000 (reverse es)) as Hhist.
    { rewrite appends_history, foldl_appended by (intros ->; simpl in Hlen; lia).
      by apply latest_1000. }
    split; [done|].
    rewrite (get_session_events_up _ _ 1000 _ (appends_up sid es σ Hup) Hhist) by lia.
    change (Z.to_nat 1000) with 1000%nat. by rewrite take_take, Nat.min_id.
Qed.

Lemma ws_send_run w m σ : ∃ r, ws_send w m σ = (r, extend [Send w m] σ).
Proof.
  unfold ws_send, bind, get_world. rewrite emit_run. unfold link_of. simpl.
  destruct (default Up (links σ !! w)); by eexists.
Qed.

Lemma send_session_state_run w sid σ :
  ∃ tr, _send_session_state w sid σ = (Ok tt, extend tr σ) ∧
        sends tr = [(w, dumps (state_message sid (replayed σ sid 50) (known_count (self σ) sid)))].
Proof.
  unfold _send_session_state.
  destruct (get_session_events_run σ sid 50) as (t1 & Hget & Hs1).
  set (message := dumps (state_message sid (replayed σ sid 50) (known_count (self σ) sid))).
  destruct (ws_send_run w message (extend t1 σ)) as (r & Hsend).
  unfold try_except. erewrite bind_run by exact Hget.
  unfold bind, get_world. simpl. fold message. rewrite Hsend, extend_extend.
  destruct r as [[]|e].
  - eexists. split; [done|]. by rewrite sends_app, Hs1.
  - rewrite log_run, extend_extend. eexists. split; [done|].
    by rewrite !sends_app, Hs1.
Qed.

(** C10. With the broker available and [old] the decoded entries of the
    session's list (newest first, however many), [_send_session_state]
    sends the participant one [session_state] message whose [events] are
    the first 50 of them, so never more than 50. *)
Theorem session_state_has_at_most_50_events σ w sid (old : list json) :
  broker_up σ →
  history σ sid = dumps <$> old →
  ∃ tr, _send_session_state w sid σ = (Ok tt, extend tr σ) ∧
        sends tr = [(w, dumps (state_message sid (take 50 old) (known_count (self σ) sid)))] ∧
        (length (take 50 old) ≤ 50)%nat.
Proof.
  intros Hup Hold.
  destruct (send_session_state_run w sid σ) as (tr & Hrun & Hs).
  rewrite (replayed_up σ sid 50 old Hup Hold) in Hs by lia.
  exists tr. split_and!; [done|done|]. rewrite length_take. lia.
Qed.

(** C1 (as the code has it). With the broker available, after the events
    [es] were appended in that order to a session whose list held [old],
    the [session_state] message sent to a joining participant carries the
    50 most recent entries newest first: the appended events in reverse
    order of arrival, then the older ones. No reversal to chronological
    order takes place. *)
Theorem session_state_replays_newest_first σ w sid (es old : list json) :
  broker_up σ →
  history σ sid = dumps <$> old →
  ∃ σ' tr,
    for_each es (_store_session_event sid) σ = (Ok tt, σ') ∧
    _send_session_state w sid σ' = (Ok tt, extend tr σ') ∧
    sends tr = [(w, dumps (state_message sid (take 50 (reverse es ++ old))
                                         (known_count (self σ) sid)))].
Proof.
  intros Hup Hold.
  set (σ' := foldl (λ σ e, stored sid e σ) σ es).
  assert (∃ kept, history σ' sid = dumps <$> kept ∧
                  take 50 kept = take 50 (reverse es ++ old)) as (kept & Hhist & Hkept).
  { unfold σ'. rewrite appends_history, Hold. destruct es as [|e es'].
    - by exists old.
    - exists (take 1000 (reverse (e :: es') ++ old)). split.
      + rewrite foldl_appended by done.
        by rewrite <- fmap_reverse, <- fmap_app, fmap_take.
      + by rewrite take_take, Nat.min_l by lia. }
  destruct (send_session_state_run w sid σ') as (tr & Hrun & Hs).
  rewrite (replayed_up σ' sid 50 kept (appends_up sid es σ Hup) Hhist) in Hs by lia.
  change (Z.to_nat 50) with 50%nat in Hs. rewrite Hkept in Hs.
  unfold σ' in Hs at 1. rewrite appends_self in Hs.
  exists σ', tr. split_and!; [by apply appends_run|done|done].
Qed.

(** ** Connection lifecycle *)

Lemma join_run σ w sid uid t0 t1 :
  registry_inv (self σ) →
  participants (self σ) sid !! uid = None →
  uid ≠ "" →
  ∃ tr m' events,
    join w sid uid t0 t1 σ = (Ok tt, extend tr (with_self (λ _, m') σ)) ∧
    registry_inv m' ∧
    participants m' sid = <[uid := w]> (participants (self σ) sid) ∧
    sends tr ≡ₚ
      deliveries (participants (self σ) sid)
        (dumps (presence_event "USER_JOIN" uid t1
                  (Z.of_nat (size (participants (self σ) sid)) + 1)))
      ++ [(w, dumps (state_message sid events
                       (Z.of_nat (size (participants (self σ) sid)) + 1)))].
Proof.
  intros Hinv Hfresh Huid.
  set (users := participants (self σ) sid) in *.
  set (n := Z.of_nat (size users) + 1).
  set (m1 := set_metadata
               (<[sid := mkMeta (default t0 (created_at <$> session_metadata (self σ) !! sid)) n]>
                  (session_metadata (self σ)))
               (set_active (<[sid := <[uid := w]> users]> (active_sessions (self σ))) (self σ))).
  set (σ1 := with_self (λ _, m1) σ).
  assert (add_participant w sid uid t0 σ = (Ok tt, σ1)) as Hadd by (by apply add_participant_run).
  assert (participants m1 sid = <[uid := w]> users) as Hp1.
  { unfold participants at 1, m1. simpl. by rewrite lookup_insert_eq. }
  set (notice := presence_event "USER_JOIN" uid t1 n).
  destruct (broadcast_run sid notice (JStr uid) σ1) as (tr1 & Hbc & Hs1).
  simpl in Hs1. rewrite Hp1 in Hs1.
  destruct (send_session_state_run w sid (extend tr1 σ1)) as (tr2 & Hstate & Hs2).
  assert (known_count (self (extend tr1 σ1)) sid = n) as Hn.
  { unfold known_count, m1. simpl. by rewrite lookup_insert_eq. }
  rewrite Hn in Hs2.
  exists (tr1 ++ tr2 ++ [Log INFO "User joined collaboration session"]), m1.
  exists (replayed (extend tr1 σ1) sid 50). split_and!.
  - unfold join. erewrite bind_run by exact Hadd.
    unfold bind at 1. unfold get_world at 1. simpl.
    unfold bind at 1. unfold get_item at 1. simpl. rewrite lookup_insert_eq.
    unfold ret at 1. simpl. fold n notice σ1.
    erewrite bind_run by exact Hbc. erewrite bind_run by exact Hstate.
    by rewrite log_run, !extend_extend.
  - by apply add_participant_preserves.
  - exact Hp1.
  - rewrite !sends_app, Hs1, Hs2, app_nil_r. f_equiv.
    rewrite deliveries_fmap, (websockets_to_send_excluding _ uid Huid).
    by rewrite delete_insert_id by exact Hfresh.
Qed.

(** C2 (as the code has it). From a registry that satisfies the invariant,
    the admission of a connection sends the synthesized USER_JOIN event to
    every participant already registered under the session (not to the new
    one, whose only message is the private [session_state]), and the
    disconnect handler sends the synthesized USER_LEAVE event to every
    participant that remains. Neither touches the broker: nothing is
    published on the relay channel. *)
Theorem presence_events_are_local_only σ :
  registry_inv (self σ) →
  (∀ w sid uid t0 t1,
     participants (self σ) sid !! uid = None →
     uid ≠ "" →
     ∃ σ' tr events,
       join w sid uid t0 t1 σ = (Ok tt, σ') ∧
       trace σ' = trace σ ++ tr ∧
       broker σ' = broker σ ∧
       sends tr ≡ₚ
         deliveries (participants (self σ) sid)
           (dumps (presence_event "USER_JOIN" uid t1
                     (Z.of_nat (size (participants (self σ) sid)) + 1)))
         ++ [(w, dumps (state_message sid events
                          (Z.of_nat (size (participants (self σ) sid)) + 1)))]) ∧
  (∀ sid uid now,
     ∃ σ' tr,
       _handle_user_disconnect sid uid now σ = (Ok tt, σ') ∧
       trace σ' = trace σ ++ tr ∧
       broker σ' = broker σ ∧
       sends tr =
         deliveries (delete uid (participants (self σ) sid))
           (dumps (presence_event "USER_LEAVE" uid now
                     (Z.of_nat (size (delete uid (participants (self σ) sid))))))).
Proof.
  intros Hinv. split.
  - intros w sid uid t0 t1 Hfresh Huid.
    destruct (join_run σ w sid uid t0 t1 Hinv Hfresh Huid)
      as (tr & m' & events & Hrun & _ & _ & Hs).
    by exists (extend tr (with_self (λ _, m') σ)), tr, events.
  - intros sid uid now.
    destruct (disconnect_run σ sid uid now Hinv) as (tr & m' & Hrun & _ & _ & _ & Hs).
    by exists (extend tr (with_self (λ _, m') σ)), tr.
Qed.

(** ** The start of the manager *)

Lemma redis_call_unreachable {A} (cmd : Redis → A * Redis) σ :
  redis_client (self σ) = true →
  reachable (broker σ) = false →
  redis_call cmd σ = (Raise RedisConnectionError, σ).
Proof.
  intros Hclient Hreach. unfold redis_call. unfold_coro. simpl.
  by rewrite Hclient, Hreach.
Qed.

Lemma start_unreachable σ :
  reachable (broker σ) = false →
  start σ =
    (Raise RedisConnectionError,
     extend [Log ERROR "Failed to start collaboration manager"]
       (with_self (λ m, mkManager true (pubsub m) (listener m)
                          (active_sessions m) (session_metadata m)) σ)).
Proof.
  intros Hreach. unfold start, ping.
  erewrite try_except_raise; cycle 1.
  { unfold bind at 1. unfold modify at 1.
    erewrite bind_raise; [done|]. by apply redis_call_unreachable. }
  unfold bind. by rewrite log_run.
Qed.

Lemma start_reachable σ :
  reachable (broker σ) = true →
  start σ =
    (Ok tt,
     extend [Log INFO "Collaboration manager started successfully"]
       (with_self (λ m, mkManager true true true
                          (active_sessions m) (session_metadata m)) σ)).
Proof.
  intros Hreach. destruct σ as [[rc ps ls act md] [re li tt pu] lk tr].
  simpl in Hreach. subst re. reflexivity.
Qed.

(** ** Inbound messages *)

Lemma handle_user_message_run σ sid uid d ts :
  broker_up σ →
  ∃ tr,
    _handle_user_message sid uid (JDict d) ts σ =
      (Ok tt,
       extend tr
         (with_broker (λ r, set_published
                              (published r ++ [(channel, dumps (JDict (enrich d uid sid ts)))]) r)
            (stored sid (JDict (enrich d uid sid ts)) σ))) ∧
    sends tr = (λ w, (w, dumps (JDict (enrich d uid sid ts)))) <$>
                 websockets_to_send (participants (self σ) sid) (JStr uid).
Proof.
  intros Hup. set (e := JDict (enrich d uid sid ts)).
  destruct (broadcast_run sid e (JStr uid) (stored sid e σ)) as (tr & Hbc & Hs).
  exists (tr ++ [Log DEBUG "User message processed"]). split.
  - unfold _handle_user_message. unfold bind at 1. simpl. fold e.
    erewrite bind_run by (by apply store_run).
    erewrite bind_run by exact Hbc.
    unfold publish. erewrite bind_run; cycle 1.
    { apply redis_call_run. destruct Hup. by split. }
    rewrite log_run. unfold extend, with_broker. simpl. by rewrite app_assoc.
  - by rewrite sends_app, Hs, app_nil_r.
Qed.

Lemma store_down σ sid e :
  ¬ broker_up σ →
  _store_session_event sid e σ =
    (Ok tt, extend [Log WARNING "Failed to store session event"] σ).
Proof.
  intros Hdown. unfold _store_session_event, lpush. cbv zeta.
  destruct (redis_call_down
              (λ r, (tt, set_lists (<[events_key sid := dumps e :: default [] (lists r !! events_key sid)]>
                                      (lists r)) r)) σ Hdown) as (x & Hraise & _).
  erewrite try_except_raise; [by rewrite log_run|].
  by erewrite bind_raise.
Qed.

(** Without the broker the event is still broadcast to the session. *)
Lemma on_message_down σ sid uid d ts :
  ¬ broker_up σ →
  ∃ tr,
    on_message sid uid (Encoded (JDict d), ts) σ = (Ok tt, extend tr σ) ∧
    sends tr = (λ w, (w, dumps (JDict (enrich d uid sid ts)))) <$>
                 websockets_to_send (participants (self σ) sid) (JStr uid).
Proof.
  intros Hdown. set (e := JDict (enrich d uid sid ts)).
  set (σ1 := extend [Log WARNING "Failed to store session event"] σ).
  destruct (broadcast_run sid e (JStr uid) σ1) as (tr & Hbc & Hs).
  assert (¬ broker_up (extend tr σ1)) as Hdown' by exact Hdown.
  destruct (redis_call_down
              (λ r, (tt, set_published (published r ++ [(channel, dumps e)]) r))
              (extend tr σ1) Hdown') as (x & Hraise & Hx).
  assert (_handle_user_message sid uid (JDict d) ts σ = (Raise x, extend tr σ1)) as Hrun.
  { unfold _handle_user_message. unfold bind at 1. simpl. fold e.
    erewrite bind_run by (by apply store_down).
    erewrite bind_run by exact Hbc.
    unfold publish. by erewrite bind_raise. }
  exists ([Log WARNING "Failed to store session event"] ++ tr ++
          [Log ERROR "Error handling user message"]).
  split.
  - unfold on_message. erewrite try_except_raise; cycle 1.
    { unfold bind at 1. simpl. exact Hrun. }
    unfold σ1. destruct Hx as [-> | ->]; by rewrite log_run, !extend_extend.
  - by rewrite !sends_app, Hs, app_nil_r.
Qed.

(** C3 (as the code has it). When the broker cannot be reached, [start]
    logs the failure at error level and re-raises it to its caller, without
    a subscription and without a listener task. The connection handler does
    not depend on that: with the broker unreachable, an inbound event is
    still broadcast to the local participants of its session (all but the
    sender), the loop turn returns normally, and the failed history append
    and publish leave the broker as it was. *)
Theorem start_reraises_broker_failure σ :
  reachable (broker σ) = false →
  (∃ σ', start σ = (Raise RedisConnectionError, σ') ∧
         trace σ' = trace σ ++ [Log ERROR "Failed to start collaboration manager"] ∧
         pubsub (self σ') = pubsub (self σ) ∧
         listener (self σ') = listener (self σ)) ∧
  (∀ sid uid d ts,
     ∃ tr, on_message sid uid (Encoded (JDict d), ts) σ = (Ok tt, extend tr σ) ∧
           sends tr = (λ w, (w, dumps (JDict (enrich d uid sid ts)))) <$>
                        websockets_to_send (participants (self σ) sid) (JStr uid)).
Proof.
  intros Hreach. split.
  - eexists. split; [by apply start_unreachable|]. done.
  - intros sid uid d ts. apply on_message_down.
    intros [_ Hup]. congruence.
Qed.

(** C8 (as the code has it). A frame that does not parse as JSON, or that
    parses to a value that is not an object, is dropped by the receive
    loop: its turn returns normally and leaves the world unchanged but for
    one log entry (a warning for text that does not parse, an error for a
    non-object), so nothing is sent, stored or published, and the loop goes
    on with the frames that follow. *)
Theorem undecodable_frame_is_dropped σ sid uid frame ts rest :
  undecodable frame = true →
  on_message sid uid (frame, ts) σ = (Ok tt, extend [rejection frame] σ) ∧
  for_each ((frame, ts) :: rest) (on_message sid uid) σ =
    for_each rest (on_message sid uid) (extend [rejection frame] σ).
Proof.
  intros Hbad.
  assert (on_message sid uid (frame, ts) σ = (Ok tt, extend [rejection frame] σ)) as Hrun.
  { destruct frame as [[| | | | |]|raw]; try done. }
  split; [exact Hrun|].
  simpl. by erewrite bind_run by exact Hrun.
Qed.

(** ** The relay *)

Lemma relay_run σ (d : gmap string json) sid :
  d !! "session_id" = Some (JStr sid) →
  ∃ tr,
    on_pubsub_message (mkPubSubMessage "message" (dumps (JDict d))) σ = (Ok tt, extend tr σ) ∧
    sends tr = (λ w, (w, dumps (JDict d))) <$>
                 websockets_to_send (participants (self σ) sid) (default JNull (d !! "user_id")).
Proof.
  intros Hsid.
  destruct (broadcast_run sid (JDict d) (default JNull (d !! "user_id")) σ) as (tr & Hbc & Hs).
  unfold on_pubsub_message. simpl.
  unfold try_except, bind, get_world. simpl. rewrite Hsid. simpl.
  destruct (active_sessions (self σ) !! sid) as [users|] eqn:Hactive.
  - rewrite Hbc. by exists tr.
  - exists []. rewrite extend_nil. split; [done|].
    rewrite (participants_absent _ _ Hactive).
    unfold websockets_to_send. by rewrite map_to_list_empty.
Qed.

Lemma enrich_lookup d uid sid ts :
  enrich d uid sid ts !! "user_id" = Some (JStr uid) ∧
  enrich d uid sid ts !! "session_id" = Some (JStr sid) ∧
  enrich d uid sid ts !! "timestamp" = Some (JStr ts) ∧
  (∀ k, k ≠ "user_id" → k ≠ "session_id" → k ≠ "timestamp" →
        enrich d uid sid ts !! k = d !! k).
Proof.
  unfold enrich. split_and!.
  - by rewrite !lookup_insert_ne, lookup_insert_eq by done.
  - by rewrite lookup_insert_ne, lookup_insert_eq by done.
  - by rewrite lookup_insert_eq.
  - intros k H1 H2 H3. by rewrite !lookup_insert_ne by done.
Qed.

(** C4 (as the code has it). With the broker available, an event accepted
    from participant [uid] is sent once to every other local participant of
    the session by the local broadcast and published; when the broker
    delivers that publication back to the subscription of the same process,
    the relay sends it to the same participants a second time. The sender
    is left out both times; nothing suppresses the second delivery. *)
Theorem relay_echo_is_delivered_again σ sid uid d ts :
  broker_up σ →
  uid ≠ "" →
  ∃ σ1 tr1 tr2,
    _handle_user_message sid uid (JDict d) ts σ = (Ok tt, σ1) ∧
    trace σ1 = trace σ ++ tr1 ∧
    published (broker σ1) =
      published (broker σ) ++ [(channel, dumps (JDict (enrich d uid sid ts)))] ∧
    on_pubsub_message (mkPubSubMessage "message" (dumps (JDict (enrich d uid sid ts)))) σ1
      = (Ok tt, extend tr2 σ1) ∧
    sends tr1 ≡ₚ deliveries (delete uid (participants (self σ) sid))
                   (dumps (JDict (enrich d uid sid ts))) ∧
    sends tr2 = sends tr1.
Proof.
  intros Hup Huid.
  destruct (handle_user_message_run σ sid uid d ts Hup) as (tr1 & Hrun & Hs1).
  destruct (enrich_lookup d uid sid ts) as (Hu & Hs & _).
  eexists. exists tr1.
  edestruct (relay_run) as (tr2 & Hrelay & Hs2); [exact Hs|].
  exists tr2. split_and!; [exact Hrun|done|done|exact Hrelay|..].
  - rewrite Hs1, deliveries_fmap. by rewrite (websockets_to_send_excluding _ uid Huid).
  - rewrite Hs2, Hs1, Hu. done.
Qed.

(** C9. With the broker available, a well-formed inbound message gives one
    enriched event whose [user_id], [session_id] and [timestamp] are the
    values assigned by the server, whatever the client put under these
    names, and whose other fields are the client's. That one value is what
    is appended to the history, what every local send carries and what is
    published; the relay passes it on unchanged. *)
Theorem enriched_event_is_stamped_by_server σ sid uid d ts :
  broker_up σ →
  (enrich d uid sid ts !! "user_id" = Some (JStr uid) ∧
   enrich d uid sid ts !! "session_id" = Some (JStr sid) ∧
   enrich d uid sid ts !! "timestamp" = Some (JStr ts) ∧
   (∀ k, k ≠ "user_id" → k ≠ "session_id" → k ≠ "timestamp" →
         enrich d uid sid ts !! k = d !! k)) ∧
  ∃ σ' tr,
    _handle_user_message sid uid (JDict d) ts σ = (Ok tt, σ') ∧
    trace σ' = trace σ ++ tr ∧
    history σ' sid = take 1000 (dumps (JDict (enrich d uid sid ts)) :: history σ sid) ∧
    sends tr = (λ w, (w, dumps (JDict (enrich d uid sid ts)))) <$>
                 websockets_to_send (participants (self σ) sid) (JStr uid) ∧
    published (broker σ') =
      published (broker σ) ++ [(channel, dumps (JDict (enrich d uid sid ts)))] ∧
    (∀ σ2, ∃ tr2,
       on_pubsub_message (mkPubSubMessage "message" (dumps (JDict (enrich d uid sid ts)))) σ2
         = (Ok tt, extend tr2 σ2) ∧
       ∀ w m, (w, m) ∈ sends tr2 → m = dumps (JDict (enrich d uid sid ts))).
Proof.
  intros Hup. split; [apply enrich_lookup|].
  destruct (handle_user_message_run σ sid uid d ts Hup) as (tr & Hrun & Hs).
  eexists. exists tr. split_and!; [exact Hrun|done| |exact Hs|done|].
  - simpl. unfold history. simpl. by rewrite lookup_insert_eq.
  - intros σ2. destruct (enrich_lookup d uid sid ts) as (_ & Hsid & _).
    destruct (relay_run σ2 _ sid Hsid) as (tr2 & Hrelay & Hs2).
    exists tr2. split; [exact Hrelay|].
    intros w m Hin. rewrite Hs2 in Hin.
    apply list_elem_of_fmap in Hin as (w' & Heq & _). by injection Heq.
Qed.

(** ** The claims on concrete worlds *)

Lemma fresh_world_up : broker_up fresh_world.
Proof. by split. Qed.

Lemma lobby_up : broker_up lobby.
Proof. by split. Qed.

Lemma lobby_inv : registry_inv (self lobby).
Proof. apply (bool_decide_unpack _). vm_compute. exact I. Qed.

(** C1, counterexample. Events A, B, C are appended in that order, then a
    participant joins: the [events] of its [session_state] message are
    [C, B, A], not the chronological [A, B, C]. *)
Lemma replay_is_not_chronological :
  let σ := ((run for_each [ev "A"; ev "B"; ev "C"] (_store_session_event "s");
             join 7%nat "s" "u7" "t0" "t1") fresh_world).2 in
  sends (trace σ) = [(7%nat, dumps (state_message "s" [ev "C"; ev "B"; ev "A"] 1))] ∧
  sends (trace σ) ≠ [(7%nat, dumps (state_message "s" [ev "A"; ev "B"; ev "C"] 1))].
Proof.
  split; [by vm_compute|].
  vm_compute. intros H. discriminate H.
Qed.

Lemma session_state_replays_newest_first_witness :
  (broker_up fresh_world ∧ history fresh_world "s" = dumps <$> []) ∧
  ∃ σ' tr,
    for_each [ev "A"; ev "B"; ev "C"] (_store_session_event "s") fresh_world = (Ok tt, σ') ∧
    _send_session_state 7%nat "s" σ' = (Ok tt, extend tr σ') ∧
    sends tr = [(7%nat, dumps (state_message "s" [ev "C"; ev "B"; ev "A"] 0))].
Proof.
  split; [by split|].
  exact (session_state_replays_newest_first fresh_world 7%nat "s"
           [ev "A"; ev "B"; ev "C"] [] fresh_world_up eq_refl).
Defined.

(** C2, counterexample. A third participant joins the session of two and
    the first one then disconnects: both notices are sent to the local
    participants, and the list of publications on the broker stays empty. *)
Lemma presence_events_are_not_published :
  let σ1 := (join 3%nat "s" "u3" "t1" "t2" lobby).2 in
  let σ2 := (_handle_user_disconnect "s" "u1" "t3" σ1).2 in
  sends (trace σ2) =
    [(1%nat, dumps (presence_event "USER_JOIN" "u3" "t2" 3));
     (2%nat, dumps (presence_event "USER_JOIN" "u3" "t2" 3));
     (3%nat, dumps (state_message "s" [] 3));
     (3%nat, dumps (presence_event "USER_LEAVE" "u1" "t3" 2));
     (2%nat, dumps (presence_event "USER_LEAVE" "u1" "t3" 2))] ∧
  published (broker σ1) = [] ∧
  published (broker σ2) = [].
Proof.
  by vm_compute.
Qed.

Lemma presence_events_are_local_only_witness :
  registry_inv (self lobby) ∧
  (∃ σ' tr events,
     join 3%nat "s" "u3" "t1" "t2" lobby = (Ok tt, σ') ∧
     trace σ' = trace lobby ++ tr ∧
     broker σ' = broker lobby ∧
     sends tr ≡ₚ
       deliveries (participants (self lobby) "s")
         (dumps (presence_event "USER_JOIN" "u3" "t2"
                   (Z.of_nat (size (participants (self lobby) "s")) + 1)))
       ++ [(3%nat, dumps (state_message "s" events
                            (Z.of_nat (size (participants (self lobby) "s")) + 1)))]) ∧
  (∃ σ' tr,
     _handle_user_disconnect "s" "u1" "t3" lobby = (Ok tt, σ') ∧
     trace σ' = trace lobby ++ tr ∧
     broker σ' = broker lobby ∧
     sends tr =
       deliveries (delete "u1" (participants (self lobby) "s"))
         (dumps (presence_event "USER_LEAVE" "u1" "t3"
                   (Z.of_nat (size (delete "u1" (participants (self lobby) "s"))))))).
Proof.
  split; [exact lobby_inv|].
  destruct (presence_events_are_local_only lobby lobby_inv) as [Hjoin Hleave].
  split.
  - apply Hjoin; [by vm_compute|done].
  - apply Hleave.
Defined.

(** C3, counterexample. With the broker unreachable, [start] does not
    return: it raises the connection error to its caller. *)
Lemma start_fails_without_broker :
  (start offline_world).1 = Raise RedisConnectionError ∧
  trace (start offline_world).2 = [Log ERROR "Failed to start collaboration manager"] ∧
  listener (self (start offline_world).2) = false.
Proof. by vm_compute. Qed.

Lemma start_reraises_broker_failure_witness :
  reachable (broker offline_world) = false ∧
  (∃ σ', start offline_world = (Raise RedisConnectionError, σ') ∧
         trace σ' = trace offline_world ++ [Log ERROR "Failed to start collaboration manager"] ∧
         pubsub (self σ') = pubsub (self offline_world) ∧
         listener (self σ') = listener (self offline_world)) ∧
  (∀ sid uid d ts,
     ∃ tr, on_message sid uid (Encoded (JDict d), ts) offline_world
             = (Ok tt, extend tr offline_world) ∧
           sends tr = (λ w, (w, dumps (JDict (enrich d uid sid ts)))) <$>
                        websockets_to_send (participants (self offline_world) sid) (JStr uid)).
Proof.
  split; [reflexivity|].
  exact (start_reraises_broker_failure offline_world eq_refl).
Defined.

(** C4, counterexample. Participant [u1] sends an event and the broker
    delivers the publication back to this process: the other participant
    of the session, on transport 2, is sent the same event twice. *)
Lemma echo_is_delivered_twice :
  let σ1 := (_handle_user_message "s" "u1" (ev "view_change") "t5" lobby).2 in
  let σ2 := (_handle_pubsub_messages (echoes (published (broker σ1))) σ1).2 in
  let e := dumps (JDict (enrich {[ "type" := JStr "view_change" ]} "u1" "s" "t5")) in
  published (broker σ1) = [(channel, e)] ∧
  sends (trace σ2) = [(2%nat, e); (2%nat, e)].
Proof. by vm_compute. Qed.

Lemma relay_echo_is_delivered_again_witness :
  (broker_up lobby ∧ "u1" ≠ "") ∧
  ∃ σ1 tr1 tr2,
    _handle_user_message "s" "u1" (ev "view_change") "t5" lobby = (Ok tt, σ1) ∧
    on_pubsub_message
      (mkPubSubMessage "message"
         (dumps (JDict (enrich {[ "type" := JStr "view_change" ]} "u1" "s" "t5")))) σ1
      = (Ok tt, extend tr2 σ1) ∧
    sends tr2 = sends tr1.
Proof.
  split; [by split|].
  destruct (relay_echo_is_delivered_again lobby "s" "u1" {[ "type" := JStr "view_change" ]} "t5"
              lobby_up) as (σ1 & tr1 & tr2 & Hrun & _ & _ & Hrelay & _ & Hsame); [done|].
  exists σ1, tr1, tr2. split_and!; assumption.
Defined.

(** C8, counterexample. The frame [{}] is a JSON object without a type, so
    it does not conform to the client envelope; yet it is enriched, stored
    in the history, sent to the other participant and published. *)
Lemma nonconforming_object_is_processed :
  let σ := (on_message "s" "u1" (Encoded (JDict ∅), "t5") lobby).2 in
  let e := dumps (JDict (enrich ∅ "u1" "s" "t5")) in
  conforming (Encoded (JDict ∅)) = false ∧
  sends (trace σ) = [(2%nat, e)] ∧
  history σ "s" = [e] ∧
  published (broker σ) = [(channel, e)].
Proof. by vm_compute. Qed.

Lemma undecodable_frame_is_dropped_witness :
  undecodable (Garbled "{") = true ∧
  on_message "s" "u1" (Garbled "{", "t5") lobby
    = (Ok tt, extend [Log WARNING "Invalid JSON received"] lobby) ∧
  for_each [(Garbled "{", "t5"); (Encoded (ev "view_change"), "t6")] (on_message "s" "u1") lobby
    = for_each [(Encoded (ev "view_change"), "t6")] (on_message "s" "u1")
        (extend [Log WARNING "Invalid JSON received"] lobby).
Proof.
  split; [reflexivity|].
  exact (undecodable_frame_is_dropped lobby "s" "u1" (Garbled "{") "t5"
           [(Encoded (ev "view_change"), "t6")] eq_refl).
Defined.

Lemma broadcast_excludes_participant_witness :
  (participants (self lobby) "s" !! "u1" = Some 1%nat ∧ "u1" ≠ "") ∧
  ∃ tr,
    _broadcast_to_session "s" (ev "view_change") (JStr "u1") lobby = (Ok tt, extend tr lobby) ∧
    sends tr ≡ₚ deliveries (delete "u1" (participants (self lobby) "s"))
                  (dumps (ev "view_change")) ∧
    (2%nat, dumps (ev "view_change")) ∈ sends tr.
Proof.
  split; [by split|].
  destruct (broadcast_excludes_participant lobby "s" (ev "view_change") "u1" 1%nat)
    as (tr & Hrun & Hperm & Hall & _); [reflexivity|done|].
  exists tr. split_and!; [done|done|].
  by apply (Hall "u2").
Defined.

Lemma history_keeps_latest_1000_witness :
  (broker_up fresh_world ∧ (1000 < length (replicate 1001 (ev "A")))%nat) ∧
  ∃ σ',
    for_each (replicate 1001 (ev "A")) (_store_session_event "s") fresh_world = (Ok tt, σ') ∧
    history σ' "s" = dumps <$> take 1000 (reverse (replicate 1001 (ev "A"))) ∧
    _get_session_events "s" 1000 σ'
      = (Ok (take 1000 (reverse (replicate 1001 (ev "A")))), σ').
Proof.
  assert ((1000 < length (replicate 1001 (ev "A")))%nat) as Hlen.
  { rewrite length_replicate. lia. }
  split; [split; [by split|exact Hlen]|].
  exact (proj2 (history_keeps_latest_1000 fresh_world "s" fresh_world_up) _ Hlen).
Defined.

Lemma registry_invariant_preserved_witness :
  registry_inv (self lobby) ∧
  (∃ σ', add_participant 3%nat "s" "u3" "t1" lobby = (Ok tt, σ') ∧
         registry_inv (self σ') ∧
         participants (self σ') "s" = <["u3" := 3%nat]> (participants (self lobby) "s")) ∧
  (∃ σ', _handle_user_disconnect "s" "u1" "t3" lobby = (Ok tt, σ') ∧
         registry_inv (self σ') ∧
         participants (self σ') "s" = delete "u1" (participants (self lobby) "s")).
Proof.
  split; [exact lobby_inv|].
  destruct (registry_invariant_preserved lobby lobby_inv) as [Hadd Hremove].
  split.
  - by apply Hadd.
  - apply Hremove.
Defined.

Lemma enriched_event_is_stamped_by_server_witness :
  broker_up lobby ∧
  enrich {[ "type" := JStr "view_change"; "user_id" := JStr "forged" ]} "u1" "s" "t5"
    !! "user_id" = Some (JStr "u1") ∧
  ∃ σ' tr,
    _handle_user_message "s" "u1"
      (JDict {[ "type" := JStr "view_change"; "user_id" := JStr "forged" ]}) "t5" lobby
      = (Ok tt, σ') ∧
    trace σ' = trace lobby ++ tr ∧
    published (broker σ') =
      published (broker lobby) ++
      [(channel,
        dumps (JDict (enrich {[ "type" := JStr "view_change"; "user_id" := JStr "forged" ]}
                        "u1" "s" "t5")))].
Proof.
  split; [exact lobby_up|].
  destruct (enriched_event_is_stamped_by_server lobby "s" "u1"
              {[ "type" := JStr "view_change"; "user_id" := JStr "forged" ]} "t5" lobby_up)
    as [(Huid & _) (σ' & tr & Hrun & Htrace & _ & _ & Hpub & _)].
  split; [exact Huid|]. exists σ', tr. split_and!; assumption.
Defined.

Lemma session_state_has_at_most_50_events_witness :
  (broker_up busy_world ∧ history busy_world "s" = dumps <$> replicate 60 (ev "A")) ∧
  ∃ tr,
    _send_session_state 7%nat "s" busy_world = (Ok tt, extend tr busy_world) ∧
    sends tr = [(7%nat, dumps (state_message "s" (take 50 (replicate 60 (ev "A")))
                                 (known_count (self busy_world) "s")))] ∧
    (length (take 50 (replicate 60 (ev "A"))) ≤ 50)%nat.
Proof.
  assert (history busy_world "s" = dumps <$> replicate 60 (ev "A")) as Hold by reflexivity.
  split; [split; [by split|exact Hold]|].
  exact (session_state_has_at_most_50_events busy_world 7%nat "s" _ (conj eq_refl eq_refl) Hold).
Defined.

(** A whole connection on the concrete session: a third participant
    joins, sends one frame that does not parse and one event, and leaves.
    The other two participants get the join notice, the event and the
    leave notice; the registry is back where it started. *)
Lemma connection_lifecycle_example :
  let r := handle_connection 3%nat "s" "u3" "t1" "t2"
             [(Garbled "{", "t3"); (Encoded (ev "cursor_move"), "t4")] CloseOK "t5" lobby in
  let e := dumps (JDict (enrich {[ "type" := JStr "cursor_move" ]} "u3" "s" "t4")) in
  r.1 = Ok tt ∧
  self r.2 = self lobby ∧
  sends (trace r.2) =
    [(1%nat, dumps (presence_event "USER_JOIN" "u3" "t2" 3));
     (2%nat, dumps (presence_event "USER_JOIN" "u3" "t2" 3));
     (3%nat, dumps (state_message "s" [] 3));
     (1%nat, e); (2%nat, e);
     (1%nat, dumps (presence_event "USER_LEAVE" "u3" "t5" 2));
     (2%nat, dumps (presence_event "USER_LEAVE" "u3" "t5" 2))] ∧
  history r.2 "s" = [e] ∧
  published (broker r.2) = [(channel, e)].
Proof. by vm_compute. Qed.

(** ** Further properties of the local broadcaster *)




Lemma no_exclusion exclude_user uid :
  (∀ s, exclude_user = JStr s → s = "") →
  truthy exclude_user && str_eq uid exclude_user = false.
Proof.
  intros Hex. destruct exclude_user as [| | |s| |]; simpl; try by rewrite ?andb_false_r.
  rewrite (Hex s eq_refl). reflexivity.
Qed.

(** X2. When [exclude_user] is not a non-empty string ([None], the empty
    string, a number, ...), nobody is left out: [send] is called once for
    every participant registered under the session, a participant whose id
    is the empty string included. *)
Theorem broadcast_without_exclusion σ session_id data exclude_user :
  (∀ s, exclude_user = JStr s → s = "") →
  ∃ tr,
    _broadcast_to_session session_id data exclude_user σ = (Ok tt, extend tr σ) ∧
    sends tr = deliveries (participants (self σ) session_id) (dumps data).
Proof.
  intros Hex.
  destruct (broadcast_run session_id data exclude_user σ) as (tr & Hrun & Hs).
  exists tr. split; [done|].
  rewrite Hs, deliveries_fmap, websockets_to_send_all; [done|].
  intros uid. by apply no_exclusion.
Qed.

(** ** Further properties of the session registry *)

Lemma add_participant_world σ w sid uid now :
  registry_inv (self σ) →
  add_participant w sid uid now σ = (Ok tt, with_self (registered w sid uid now) σ).
Proof. apply add_participant_run. Qed.

Lemma disconnect_world σ sid uid now :
  registry_inv (self σ) →
  ∃ tr,
    _handle_user_disconnect sid uid now σ
    = (Ok tt, extend tr (with_self (unregistered sid uid) σ)) ∧
    sends tr =
      deliveries (delete uid (participants (self σ) sid))
        (dumps (presence_event "USER_LEAVE" uid now
                  (Z.of_nat (size (delete uid (participants (self σ) sid)))))).
Proof.
  intros Hinv. unfold _handle_user_disconnect, unregistered, with_self at 1.
  destruct (active_sessions (self σ) !! sid) as [users|] eqn:Hsid.
  - rewrite (participants_present _ _ _ Hsid).
    destruct (registry_inv_lookup _ _ _ Hinv Hsid) as (Hne & meta & Hmeta & Hcount).
    set (users' := delete uid users).
    set (event := presence_event "USER_LEAVE" uid now (Z.of_nat (size users'))).
    set (m1 := set_metadata
                 (<[sid := mkMeta (default ""%string (created_at <$> session_metadata (self σ) !! sid))
                                  (Z.of_nat (size users'))]>
                    (session_metadata (self σ)))
                 (set_active (<[sid := users']> (active_sessions (self σ))) (self σ))).
    assert (remove_participant sid uid σ = (Ok tt, with_self (λ _, m1) σ)) as Hrm.
    { by rewrite (remove_participant_run _ _ _ _ Hinv Hsid). }
    destruct (broadcast_run sid event JNull (with_self (λ _, m1) σ)) as (tr & Hbc & Hs).
    assert (participants m1 sid = users') as Hp1.
    { unfold participants, m1. simpl. by rewrite lookup_insert_eq. }
    simpl in Hs. rewrite Hp1, websockets_to_send_all in Hs by apply truthy_null_no_exclusion.
    rewrite <- deliveries_fmap in Hs.
    assert (leave sid uid now σ = cleanup_session sid (extend tr (with_self (λ _, m1) σ)))
      as Hpre.
    { unfold leave. erewrite bind_run by exact Hrm.
      unfold bind at 1. unfold get_world at 1. simpl.
      unfold bind at 1. unfold get_item at 1. simpl. rewrite lookup_insert_eq.
      unfold ret at 1. simpl. fold event. by erewrite bind_run by exact Hbc. }
    destruct (decide (users' = ∅)) as [Hempty|Hnonempty].
    + rewrite bool_decide_eq_true_2 by done.
      exists (tr ++ [Log INFO "Session cleaned up"; Log INFO "User disconnected"]).
      split; [|by rewrite sends_app, Hs, app_nil_r].
      apply try_except_ok.
      unfold bind at 1. unfold get_world at 1. simpl. rewrite Hsid.
      erewrite bind_run; cycle 1.
      { rewrite Hpre. apply cleanup_session_empty.
        - simpl. by rewrite lookup_insert_eq, Hempty.
        - simpl. by rewrite lookup_insert_eq. }
      rewrite log_run.
      unfold extend, with_self, m1, set_metadata, set_active. simpl.
      rewrite !delete_insert_eq, <- !app_assoc. reflexivity.
    + rewrite bool_decide_eq_false_2 by done.
      exists (tr ++ [Log INFO "User disconnected"]).
      split; [|by rewrite sends_app, Hs, app_nil_r].
      apply try_except_ok.
      unfold bind at 1. unfold get_world at 1. simpl. rewrite Hsid.
      erewrite bind_run; cycle 1.
      { rewrite Hpre. eapply cleanup_session_nonempty; [|exact Hnonempty].
        simpl. by rewrite lookup_insert_eq. }
      rewrite log_run. by rewrite extend_extend.
  - exists [Log INFO "User disconnected"].
    rewrite (participants_absent _ _ Hsid), delete_empty, deliveries_empty.
    split; [|done]. apply try_except_ok.
    unfold bind at 1. unfold get_world at 1. simpl. rewrite Hsid.
    by destruct σ.
Qed.

Lemma unregistered_registered m w sid uid now :
  registry_inv m →
  participants m sid !! uid = None →
  unregistered sid uid (registered w sid uid now m) = m.
Proof.
  intros Hinv Hfresh. destruct m as [rc ps ls act md].
  unfold unregistered, registered, participants in *. simpl in *.
  rewrite lookup_insert_eq.
  destruct (act !! sid) as [users|] eqn:Hsid; simpl in *.
  - destruct (registry_inv_lookup _ _ _ Hinv Hsid) as (Hne & meta & Hmeta & Hcount).
    simpl in *. rewrite delete_insert_id by done.
    rewrite bool_decide_eq_false_2 by done.
    unfold set_metadata, set_active. simpl.
    rewrite !insert_insert_eq, lookup_insert_eq. simpl. rewrite Hmeta. simpl.
    rewrite (insert_id act sid users Hsid).
    rewrite (insert_id md sid); [done|]. rewrite Hmeta. f_equal.
    destruct meta as [c n]. simpl in *. by rewrite Hcount.
  - pose proof (registry_inv_absent _ _ Hinv Hsid) as Hmd. simpl in Hmd.
    rewrite delete_insert_id by done.
    rewrite bool_decide_eq_true_2 by done.
    unfold set_metadata, set_active. simpl.
    by rewrite !delete_insert_id.
Qed.

Lemma string_length_append (x t : string) :
  String.length (x +:+ t) = (String.length x + String.length t)%nat.
Proof.
  induction x as [|a x IH]; [done|].
  change (String a x +:+ t) with (String a (x +:+ t)). simpl. by rewrite IH.
Qed.

Lemma string_append_cancel_r (t x y : string) : x +:+ t = y +:+ t → x = y.
Proof.
  intros Heq.
  assert (String.length x = String.length y) as Hlen.
  { apply (f_equal String.length) in Heq. rewrite !string_length_append in Heq. lia. }
  revert y Heq Hlen. induction x as [|a x IH]; intros [|b y] Heq Hlen; try done.
  change (String a (x +:+ t) = String b (y +:+ t)) in Heq.
  injection Heq as -> Heq. f_equal. apply IH; [done|]. simpl in Hlen. lia.
Qed.

Lemma events_key_inj sid sid' : events_key sid = events_key sid' → sid = sid'.
Proof.
  unfold events_key. intros Heq.
  apply (inj (String.app "session:")) in Heq.
  by apply string_append_cancel_r in Heq.
Qed.

Lemma history_stored_other sid sid' e σ :
  sid' ≠ sid → history (stored sid e σ) sid' = history σ sid'.
Proof.
  intros Hne. unfold history, stored. simpl.
  rewrite lookup_insert_ne; [done|]. intros Heq. by apply events_key_inj in Heq.
Qed.

(** The only changes an inbound frame makes to the world: effects are
    added to the trace, and the broker gets a new state [b] in which the
    lists of the other sessions are as before. *)
Lemma on_message_frame σ sid uid frame :
  ∃ tr b,
    on_message sid uid frame σ = (Ok tt, extend tr (with_broker (λ _, b) σ)) ∧
    reachable b = reachable (broker σ) ∧
    (∀ sid', sid' ≠ sid → lists b !! events_key sid' = lists (broker σ) !! events_key sid').
Proof.
  destruct frame as [[v|raw] ts].
  - destruct v as [| | | | |d];
      try (exists [Log ERROR "Error handling user message"], (broker σ);
           rewrite with_broker_id; by split_and!).
    destruct (decide (broker_up σ)) as [Hup|Hdown].
    + destruct (handle_user_message_run σ sid uid d ts Hup) as (tr & Hrun & _).
      eexists tr, _. split_and!.
      * unfold on_message. apply try_except_ok. unfold bind at 1. simpl. exact Hrun.
      * done.
      * intros sid' Hne. simpl. rewrite lookup_insert_ne; [done|].
        intros Heq. apply events_key_inj in Heq. congruence.
    + destruct (on_message_down σ sid uid d ts Hdown) as (tr & Hrun & _).
      exists tr, (broker σ). rewrite with_broker_id. by split_and!.
  - exists [Log WARNING "Invalid JSON received"], (broker σ).
    rewrite with_broker_id. by split_and!.
Qed.

Lemma for_each_on_message_frame σ sid uid (inbound : list (text * string)) :
  ∃ tr b,
    for_each inbound (on_message sid uid) σ = (Ok tt, extend tr (with_broker (λ _, b) σ)) ∧
    reachable b = reachable (broker σ) ∧
    (∀ sid', sid' ≠ sid → lists b !! events_key sid' = lists (broker σ) !! events_key sid').
Proof.
  revert σ. induction inbound as [|frame rest IH]; intros σ.
  - exists [], (broker σ). rewrite with_broker_id, extend_nil. by split_and!.
  - destruct (on_message_frame σ sid uid frame) as (tr1 & b1 & Hrun1 & Hr1 & Hl1).
    destruct (IH (extend tr1 (with_broker (λ _, b1) σ))) as (tr2 & b2 & Hrun2 & Hr2 & Hl2).
    exists (tr1 ++ tr2), b2. split_and!.
    + simpl. erewrite bind_run by exact Hrun1. rewrite Hrun2.
      unfold extend, with_broker. simpl. by rewrite app_assoc.
    + simpl in Hr2. congruence.
    + intros sid' Hne. rewrite (Hl2 sid' Hne). simpl. by apply Hl1.
Qed.

(** X3. No frame a client sends makes its loop turn raise, and none
    changes the registry, the transports, the reachability of the broker or
    the history of another session: a turn only adds effects to the trace
    and, for a JSON object, the one history entry and publication of its
    own session. *)
Theorem inbound_frame_is_contained σ session_id user_id frame :
  ∃ σ' tr,
    on_message session_id user_id frame σ = (Ok tt, σ') ∧
    self σ' = self σ ∧
    links σ' = links σ ∧
    trace σ' = trace σ ++ tr ∧
    reachable (broker σ') = reachable (broker σ) ∧
    (∀ other, other ≠ session_id → history σ' other = history σ other).
Proof.
  destruct (on_message_frame σ session_id user_id frame) as (tr & b & Hrun & Hr & Hl).
  eexists _, tr. split_and!; [exact Hrun|done..|].
  intros other Hne. unfold history. simpl. by rewrite (Hl other Hne).
Qed.

Lemma join_world σ w sid uid t0 t1 :
  registry_inv (self σ) →
  ∃ tr, join w sid uid t0 t1 σ = (Ok tt, extend tr (with_self (registered w sid uid t0) σ)).
Proof.
  intros Hinv.
  set (σ1 := with_self (registered w sid uid t0) σ).
  set (n := Z.of_nat (size (participants (self σ) sid)) + 1).
  destruct (broadcast_run sid (presence_event "USER_JOIN" uid t1 n) (JStr uid) σ1)
    as (tr1 & Hbc & _).
  destruct (send_session_state_run w sid (extend tr1 σ1)) as (tr2 & Hstate & _).
  exists (tr1 ++ tr2 ++ [Log INFO "User joined collaboration session"]).
  unfold join. erewrite bind_run by (by apply add_participant_world).
  unfold bind at 1. unfold get_world at 1. simpl.
  unfold bind at 1. unfold get_item at 1. simpl. rewrite lookup_insert_eq.
  unfold ret at 1. simpl. fold n σ1.
  erewrite bind_run by exact Hbc. erewrite bind_run by exact Hstate.
  by rewrite log_run, !extend_extend.
Qed.

(** X4. A connection handled on its own leaves the registry as it found
    it: from a registry that satisfies the invariant and for a fresh
    participant id, whatever frames the client sends and however the
    connection ends, [handle_connection] returns normally and the manager
    (sessions, participants, counts, creation times) is the one it started
    from; the transports and the reachability of the broker are untouched. *)
Theorem connection_leaves_registry_as_found
    σ w session_id user_id t_created t_join inbound how t_leave :
  registry_inv (self σ) →
  participants (self σ) session_id !! user_id = None →
  ∃ σ',
    handle_connection w session_id user_id t_created t_join inbound how t_leave σ
    = (Ok tt, σ') ∧
    self σ' = self σ ∧
    links σ' = links σ ∧
    reachable (broker σ') = reachable (broker σ).
Proof.
  intros Hinv Hfresh.
  destruct (join_world σ w session_id user_id t_created t_join Hinv) as (tr1 & Hjoin).
  set (σ1 := extend tr1 (with_self (registered w session_id user_id t_created) σ)) in *.
  destruct (for_each_on_message_frame σ1 session_id user_id inbound)
    as (tr2 & b & Hloop & Hreach & _).
  set (σ2 := extend tr2 (with_broker (λ _, b) σ1)) in *.
  assert (∃ tr3,
            try_except
              (run join w session_id user_id t_created t_join;
               run for_each inbound (on_message session_id user_id);
               match how with
               | CloseOK => ret tt
               | CloseError => raise ConnectionClosed
               end)
              (λ e, match e with
                    | ConnectionClosed => log INFO "WebSocket connection closed"
                    | _ => raise e
                    end) σ
            = (Ok tt, extend tr3 σ2)) as (tr3 & Hbody).
  { destruct how.
    - exists []. apply try_except_ok.
      erewrite bind_run by exact Hjoin. erewrite bind_run by exact Hloop.
      by rewrite extend_nil.
    - exists [Log INFO "WebSocket connection closed"].
      erewrite try_except_raise; cycle 1.
      { erewrite bind_run by exact Hjoin. by erewrite bind_run by exact Hloop. }
      reflexivity. }
  assert (registry_inv (self (extend tr3 σ2))) as Hinv'.
  { simpl. by apply add_participant_preserves. }
  destruct (disconnect_world (extend tr3 σ2) session_id user_id t_leave Hinv')
    as (tr4 & Hleave & _).
  eexists. split_and!.
  - unfold handle_connection, try_finally. rewrite Hbody, Hleave. reflexivity.
  - simpl. by apply unregistered_registered.
  - done.
  - done.
Qed.

(** X5. Disconnecting an id that is not registered under the session (a
    second disconnect, say) leaves the manager as it is, but the
    USER_LEAVE notice for that id, with the unchanged count, is still sent
    to every participant of the session. For a session without entry
    nothing is sent. *)
Theorem disconnect_of_unknown_participant σ session_id user_id now :
  registry_inv (self σ) →
  participants (self σ) session_id !! user_id = None →
  ∃ σ' tr,
    _handle_user_disconnect session_id user_id now σ = (Ok tt, σ') ∧
    self σ' = self σ ∧
    trace σ' = trace σ ++ tr ∧
    sends tr =
      deliveries (participants (self σ) session_id)
        (dumps (presence_event "USER_LEAVE" user_id now
                  (Z.of_nat (size (participants (self σ) session_id))))).
Proof.
  intros Hinv Hfresh.
  destruct (disconnect_world σ session_id user_id now Hinv) as (tr & Hrun & Hs).
  rewrite (delete_id _ _ Hfresh) in Hs.
  eexists _, tr. split_and!; [exact Hrun| |done|exact Hs].
  simpl. unfold unregistered.
  destruct (active_sessions (self σ) !! session_id) as [users|] eqn:Hsid; [|done].
  rewrite (participants_present _ _ _ Hsid) in Hfresh.
  destruct (registry_inv_lookup _ _ _ Hinv Hsid) as (Hne & meta & Hmeta & Hcount).
  rewrite (delete_id _ _ Hfresh), bool_decide_eq_false_2 by done.
  destruct (self σ) as [rc ps ls act md]. unfold set_metadata, set_active. simpl in *.
  rewrite Hmeta. simpl. rewrite (insert_id act _ _ Hsid).
  rewrite (insert_id md session_id); [done|]. rewrite Hmeta. f_equal.
  destruct meta as [c n]. simpl in *. by rewrite Hcount.
Qed.

(** X6. Admission and disconnection under one session leave every other
    session alone: its participants and its metadata entry are the same
    before and after. *)
Theorem registry_changes_stay_in_their_session σ session_id other :
  registry_inv (self σ) →
  other ≠ session_id →
  (∀ w user_id now,
     ∃ σ', add_participant w session_id user_id now σ = (Ok tt, σ') ∧
           active_sessions (self σ') !! other = active_sessions (self σ) !! other ∧
           session_metadata (self σ') !! other = session_metadata (self σ) !! other) ∧
  (∀ user_id now,
     ∃ σ', _handle_user_disconnect session_id user_id now σ = (Ok tt, σ') ∧
           active_sessions (self σ') !! other = active_sessions (self σ) !! other ∧
           session_metadata (self σ') !! other = session_metadata (self σ) !! other).
Proof.
  intros Hinv Hne. split.
  - intros w user_id now. eexists. split; [by apply add_participant_world|].
    simpl. by rewrite !lookup_insert_ne.
  - intros user_id now.
    destruct (disconnect_world σ session_id user_id now Hinv) as (tr & Hrun & _).
    eexists. split; [exact Hrun|]. simpl. unfold unregistered.
    destruct (active_sessions (self σ) !! session_id) as [users|]; [|done].
    destruct (bool_decide (delete user_id users = ∅)); simpl.
    + by rewrite !lookup_delete_ne.
    + by rewrite !lookup_insert_ne.
Qed.

(** X7. The creation time of a session is the clock reading of the join
    that created its entry: a join into an existing session keeps it, and
    so does a disconnect that leaves the session populated. *)
Theorem creation_time_is_kept σ session_id meta :
  registry_inv (self σ) →
  session_metadata (self σ) !! session_id = Some meta →
  (∀ w user_id now,
     ∃ σ' meta',
       add_participant w session_id user_id now σ = (Ok tt, σ') ∧
       session_metadata (self σ') !! session_id = Some meta' ∧
       created_at meta' = created_at meta) ∧
  (∀ user_id now,
     delete user_id (participants (self σ) session_id) ≠ ∅ →
     ∃ σ' meta',
       _handle_user_disconnect session_id user_id now σ = (Ok tt, σ') ∧
       session_metadata (self σ') !! session_id = Some meta' ∧
       created_at meta' = created_at meta).
Proof.
  intros Hinv Hmeta. split.
  - intros w user_id now. eexists _, _. split; [by apply add_participant_world|].
    simpl. rewrite lookup_insert_eq, Hmeta. split; reflexivity.
  - intros user_id now Hleft.
    destruct (disconnect_world σ session_id user_id now Hinv) as (tr & Hrun & _).
    exists (extend tr (with_self (unregistered session_id user_id) σ)).
    exists (mkMeta (created_at meta)
              (Z.of_nat (size (delete user_id (participants (self σ) session_id))))).
    split; [exact Hrun|]. simpl. unfold unregistered.
    unfold participants in *.
    destruct (active_sessions (self σ) !! session_id) as [users|] eqn:Hsid.
    + simpl in *. rewrite bool_decide_eq_false_2 by done. simpl.
      rewrite lookup_insert_eq, Hmeta. split; reflexivity.
    + simpl in Hleft. by rewrite delete_empty in Hleft.
Qed.

(** ** Further properties of the event history store *)

Lemma get_session_events_down σ sid limit :
  ¬ broker_up σ →
  _get_session_events sid limit σ
  = (Ok [], extend [Log WARNING "Failed to get session events"] σ).
Proof.
  intros Hdown. unfold _get_session_events, lrange. cbv zeta.
  destruct (redis_call_down
              (λ r, (redis_range (default [] (lists r !! events_key sid)) 0 (limit - 1), r))
              σ Hdown) as (e & Hraise & _).
  erewrite try_except_raise by (by erewrite bind_raise).
  reflexivity.
Qed.

(** X8. Without the broker the replay degrades instead of failing:
    [_get_session_events] returns the empty list with one warning, and the
    joining participant is still sent its [session_state] message, with no
    events and the participant count of the registry. *)
Theorem replay_degrades_without_broker σ w session_id limit :
  ¬ broker_up σ →
  _get_session_events session_id limit σ
  = (Ok [], extend [Log WARNING "Failed to get session events"] σ) ∧
  ∃ tr,
    _send_session_state w session_id σ = (Ok tt, extend tr σ) ∧
    sends tr = [(w, dumps (state_message session_id [] (known_count (self σ) session_id)))].
Proof.
  intros Hdown. split; [by apply get_session_events_down|].
  destruct (send_session_state_run w session_id σ) as (tr & Hrun & Hs).
  exists tr. split; [done|].
  unfold replayed in Hs. by rewrite get_session_events_down in Hs.
Qed.

Lemma loads_all_garbled (ts : list text) raw σ :
  Garbled raw ∈ ts → loads_all ts σ = (Raise JSONDecodeError, σ).
Proof.
  induction ts as [|t ts IH]; intros Hin; [by apply elem_of_nil in Hin|].
  simpl. unfold bind at 1. destruct t as [v|raw']; [|done].
  simpl. apply elem_of_cons in Hin as [?|Hin]; [done|].
  unfold bind. by rewrite (IH Hin).
Qed.

(** X9. One entry that does not parse spoils the whole replay: with the
    broker available, if any of the first [limit] entries of the session's
    list is not JSON, [_get_session_events] returns no event at all, not
    the ones that parse, and logs one warning. *)
Theorem corrupt_entry_empties_replay σ session_id limit raw :
  broker_up σ →
  0 < limit →
  Garbled raw ∈ take (Z.to_nat limit) (history σ session_id) →
  _get_session_events session_id limit σ
  = (Ok [], extend [Log WARNING "Failed to get session events"] σ).
Proof.
  intros Hup Hlimit Hin. unfold _get_session_events, lrange. cbv zeta.
  erewrite try_except_raise; [reflexivity|].
  erewrite bind_run by (by apply redis_call_run). simpl.
  fold (history σ session_id). rewrite with_broker_id, redis_range_prefix by lia.
  replace (limit - 1 + 1) with limit by lia.
  by apply (loads_all_garbled _ raw).
Qed.



(** X11. An append that cannot reach the broker is not fatal:
    [_store_session_event] returns normally, logs one warning and leaves
    the world otherwise as it was. *)
Theorem failed_append_is_not_fatal σ session_id event_data :
  ¬ broker_up σ →
  _store_session_event session_id event_data σ
  = (Ok tt, extend [Log WARNING "Failed to store session event"] σ).
Proof. apply store_down. Qed.

Lemma take_app_take {A} (n : nat) (a b : list A) :
  take n (a ++ take n b) = take n (a ++ b).
Proof. rewrite !take_app, take_take. f_equal. f_equal. lia. Qed.

(** X12. A successful append sets the time to live of the session's key
    to 86400 seconds again, and touches nothing else: the history and the
    time to live of every other session, the publications, the registry and
    the trace are as before. *)
Theorem append_refreshes_ttl_of_its_session_only σ session_id event_data :
  broker_up σ →
  ∃ σ',
    _store_session_event session_id event_data σ = (Ok tt, σ') ∧
    ttls (broker σ') !! events_key session_id = Some 86400 ∧
    (∀ other, other ≠ session_id →
       history σ' other = history σ other ∧
       ttls (broker σ') !! events_key other = ttls (broker σ) !! events_key other) ∧
    published (broker σ') = published (broker σ) ∧
    self σ' = self σ ∧
    trace σ' = trace σ.
Proof.
  intros Hup. exists (stored session_id event_data σ).
  split_and!; [by apply store_run| |..|done|done|done].
  - simpl. by rewrite lookup_insert_eq.
  - intros other Hne. split.
    + unfold history. simpl. rewrite lookup_insert_ne; [done|].
      intros Heq. apply events_key_inj in Heq. congruence.
    + simpl. rewrite lookup_insert_ne; [done|].
      intros Heq. apply events_key_inj in Heq. congruence.
Qed.

(** X13. Below the cap nothing is lost: with the broker available, when
    the events already stored and the appended ones are at most 1000
    together, the session's list afterwards holds all of them, the appended
    ones newest first in front of the old ones, and
    [_get_session_events] with limit 1000 returns them all. *)
Theorem appends_below_cap_lose_nothing σ session_id (es old : list json) :
  broker_up σ →
  history σ session_id = dumps <$> old →
  (length es + length old ≤ 1000)%nat →
  ∃ σ',
    for_each es (_store_session_event session_id) σ = (Ok tt, σ') ∧
    history σ' session_id = dumps <$> (reverse es ++ old) ∧
    _get_session_events session_id 1000 σ' = (Ok (reverse es ++ old), σ').
Proof.
  intros Hup Hold Hlen.
  set (σ' := foldl (λ σ e, stored session_id e σ) σ es).
  assert (history σ' session_id = dumps <$> (reverse es ++ old)) as Hhist.
  { unfold σ'. rewrite appends_history, Hold. destruct es as [|e es'].
    - done.
    - rewrite foldl_appended by done.
      rewrite <- fmap_reverse, <- fmap_app. rewrite take_ge; [done|].
      rewrite length_fmap, length_app, length_reverse. lia. }
  exists σ'. split_and!; [by apply appends_run|done|].
  rewrite (get_session_events_up σ' session_id 1000 _ (appends_up session_id es σ Hup) Hhist)
    by lia.
  rewrite take_ge; [done|]. rewrite length_app, length_reverse. simpl. lia.
Qed.

Lemma on_message_up σ sid uid d ts :
  broker_up σ →
  ∃ σ' tr,
    on_message sid uid (Encoded (JDict d), ts) σ = (Ok tt, σ') ∧
    broker_up σ' ∧
    trace σ' = trace σ ++ tr ∧
    published (broker σ') =
      published (broker σ) ++ [(channel, dumps (JDict (enrich d uid sid ts)))] ∧
    history σ' sid = appended (JDict (enrich d uid sid ts)) (history σ sid).
Proof.
  intros Hup. destruct (handle_user_message_run σ sid uid d ts Hup) as (tr & Hrun & _).
  eexists _, tr. split_and!.
  - unfold on_message. apply try_except_ok. unfold bind at 1. simpl. exact Hrun.
  - destruct Hup. by split.
  - done.
  - done.
  - unfold history. simpl. by rewrite lookup_insert_eq.
Qed.

(** X14. Events keep the order in which they were accepted: with the
    broker available, after a participant's JSON objects were handled one
    after the other, the publications on the relay channel were extended by
    their enriched events in arrival order, and the session's list holds
    them newest first in front of the earlier entries, cut to 1000. *)
Theorem accepted_events_keep_their_order σ session_id user_id
    (msgs : list (gmap string json * string)) :
  broker_up σ →
  (length (history σ session_id) ≤ 1000)%nat →
  ∃ σ',
    for_each ((λ msg, (Encoded (JDict msg.1), msg.2)) <$> msgs)
      (on_message session_id user_id) σ = (Ok tt, σ') ∧
    published (broker σ') =
      published (broker σ) ++
      ((λ msg, (channel, dumps (accepted session_id user_id msg))) <$> msgs) ∧
    history σ' session_id =
      take 1000 (reverse (dumps <$> (accepted session_id user_id <$> msgs))
                 ++ history σ session_id).
Proof.
  revert σ. induction msgs as [|[d ts] rest IH]; intros σ Hup Hlen.
  - exists σ. split_and!; [done|by rewrite app_nil_r|].
    simpl. by rewrite take_ge.
  - destruct (on_message_up σ session_id user_id d ts Hup)
      as (σ1 & tr & Hrun & Hup1 & _ & Hpub1 & Hhist1).
    destruct (IH σ1 Hup1) as (σ' & Hrest & Hpub & Hhist).
    { rewrite Hhist1. unfold appended. rewrite length_take. lia. }
    exists σ'. split_and!.
    + simpl. by erewrite bind_run by exact Hrun.
    + rewrite Hpub, Hpub1. simpl. by rewrite <- app_assoc.
    + rewrite Hhist, Hhist1. unfold appended. rewrite take_app_take.
      simpl. rewrite reverse_cons, <- app_assoc. done.
Qed.

(** ** Further properties of the relay *)

Lemma websockets_to_send_absent users origin :
  users !! origin = None →
  websockets_to_send users (JStr origin) = (map_to_list users).*2.
Proof.
  intros Habsent. unfold websockets_to_send.
  assert (∀ uid w, (uid, w) ∈ map_to_list users → uid ≠ origin) as Hall.
  { intros uid w Hin ->. apply elem_of_map_to_list in Hin. congruence. }
  induction (map_to_list users) as [|[uid w] l IH]; [done|].
  cbn [omap list_omap fmap list_fmap snd].
  assert (str_eq uid (JStr origin) = false) as Hneq.
  { simpl. destruct (String.eqb_spec uid origin) as [->|]; [|done].
    by destruct (Hall origin w (list_elem_of_here _ _)). }
  rewrite Hneq, andb_false_r. f_equal. apply IH.
  intros uid' w' Hin. apply (Hall uid' w'). by apply list_elem_of_further.
Qed.

(** X15. An event relayed from another process reaches every local
    participant of its session: when the origin id of the published event
    is not registered under the session on this process, the relay calls
    [send] with the event once for each participant registered there. *)
Theorem relayed_event_reaches_all_local_participants σ (d : gmap string json)
    session_id origin :
  d !! "session_id" = Some (JStr session_id) →
  d !! "user_id" = Some (JStr origin) →
  participants (self σ) session_id !! origin = None →
  ∃ tr,
    on_pubsub_message (mkPubSubMessage "message" (dumps (JDict d))) σ
    = (Ok tt, extend tr σ) ∧
    sends tr = deliveries (participants (self σ) session_id) (dumps (JDict d)).
Proof.
  intros Hsid Horigin Habsent.
  destruct (relay_run σ d session_id Hsid) as (tr & Hrun & Hs).
  exists tr. split; [done|].
  rewrite Hs, Horigin. simpl.
  by rewrite websockets_to_send_absent, deliveries_fmap.
Qed.

Lemma on_pubsub_message_frame σ message :
  ∃ tr,
    on_pubsub_message message σ = (Ok tt, extend tr σ) ∧
    ∀ w m, (w, m) ∈ sends tr → msg_type message = "message" ∧ msg_data message = m.
Proof.
  destruct message as [ty data]. unfold on_pubsub_message. simpl.
  destruct (String.eqb_spec ty "message") as [->|Hty].
  - assert (∀ lv text, ∃ tr,
              (Ok tt, extend [Log lv text] σ) = (Ok tt, extend tr σ) ∧
              ∀ w m, (w, m) ∈ sends tr → "message" = "message" ∧ data = m) as Hlog.
    { intros lv text. exists [Log lv text]. split; [done|].
      intros w m Hin. by apply elem_of_nil in Hin. }
    assert (∃ tr,
              (Ok tt, σ) = (Ok tt, extend tr σ) ∧
              ∀ w m, (w, m) ∈ sends tr → "message" = "message" ∧ data = m) as Hnone.
    { exists []. rewrite extend_nil. split; [done|].
      intros w m Hin. by apply elem_of_nil in Hin. }
    destruct data as [v|raw]; [|apply Hlog].
    destruct v as [| | | | |d]; try apply Hlog.
    unfold try_except, bind, get_world. simpl.
    destruct (default JNull (d !! "session_id")) as [| | |sid| |]; simpl;
      try apply Hnone; try apply Hlog.
    destruct (active_sessions (self σ) !! sid) as [users|] eqn:Hactive; [|apply Hnone].
    destruct (broadcast_run sid (JDict d) (default JNull (d !! "user_id")) σ)
      as (tr & Hbc & Hs).
    rewrite Hbc. exists tr. split; [done|].
    intros w m Hin. rewrite Hs in Hin.
    apply list_elem_of_fmap in Hin as (w' & Heq & _). by injection Heq as _ ->.
  - exists []. rewrite extend_nil. split; [done|].
    intros w m Hin. by apply elem_of_nil in Hin.
Qed.

(** X16. The relay loop cannot be brought down by what arrives on the
    channel: for any sequence of messages (subscription notices, text that
    is not JSON, JSON that is not an object, odd session ids) it returns
    normally and leaves the registry, the broker and the transports as they
    were; and whatever it sends is the payload of one of the messages it
    received, never anything of its own making. *)
Theorem relay_loop_only_forwards σ (messages : list PubSubMessage) :
  ∃ tr,
    _handle_pubsub_messages messages σ = (Ok tt, extend tr σ) ∧
    ∀ w m, (w, m) ∈ sends tr →
           ∃ message, message ∈ messages ∧
                      msg_type message = "message" ∧ msg_data message = m.
Proof.
  assert (∃ tr,
            for_each messages on_pubsub_message σ = (Ok tt, extend tr σ) ∧
            ∀ w m, (w, m) ∈ sends tr →
                   ∃ message, message ∈ messages ∧
                              msg_type message = "message" ∧ msg_data message = m)
    as (tr & Hrun & Hs).
  { revert σ. induction messages as [|message rest IH]; intros σ.
    - exists []. rewrite extend_nil. split; [done|].
      intros w m Hin. by apply elem_of_nil in Hin.
    - destruct (on_pubsub_message_frame σ message) as (tr1 & Hrun1 & Hs1).
      destruct (IH (extend tr1 σ)) as (tr2 & Hrun2 & Hs2).
      exists (tr1 ++ tr2). split.
      + simpl. erewrite bind_run by exact Hrun1. by rewrite Hrun2, extend_extend.
      + intros w m Hin. rewrite sends_app in Hin.
        apply elem_of_app in Hin as [Hin|Hin].
        * exists message. split; [apply list_elem_of_here|by apply (Hs1 w)].
        * destruct (Hs2 w m Hin) as (message' & Hin' & Hty & Hdata).
          exists message'. split; [by apply list_elem_of_further|done]. }
  exists tr. split; [|done].
  unfold _handle_pubsub_messages. by apply try_except_ok.
Qed.

(** ** The start of the manager, continued *)

(** X17. With the broker reachable, [start] returns normally: afterwards
    the client, the subscription and the listener task exist, the sessions
    and their metadata are untouched, and the only effect is the log entry
    of the successful start. *)
Theorem start_succeeds_with_broker σ :
  reachable (broker σ) = true →
  ∃ σ',
    start σ = (Ok tt, σ') ∧
    redis_client (self σ') = true ∧
    pubsub (self σ') = true ∧
    listener (self σ') = true ∧
    active_sessions (self σ') = active_sessions (self σ) ∧
    session_metadata (self σ') = session_metadata (self σ) ∧
    broker σ' = broker σ ∧
    trace σ' = trace σ ++ [Log INFO "Collaboration manager started successfully"].
Proof.
  intros Hreach. eexists. split; [by apply start_reachable|]. by split_and!.
Qed.

(** ** The session directory *)

Lemma entry_count_session_entry md sid users :
  entry_count (session_entry md sid users) = Z.of_nat (size users).
Proof. reflexivity. Qed.

Lemma total_users_fold md (act : gmap string (gmap string ws)) :
  map_fold (λ _ s total, entry_count s + total) 0
    (map_imap (λ sid users, Some (session_entry md sid users)) act)
  = map_fold (λ _ (users : gmap string ws) total, Z.of_nat (size users) + total) 0 act.
Proof.
  induction act as [|sid users act Hfresh IH] using map_ind.
  - by rewrite map_imap_empty, !map_fold_empty.
  - rewrite (map_imap_insert_Some _ sid users act (session_entry md sid users)) by done.
    rewrite map_fold_insert_L; cycle 1.
    { intros. lia. }
    { by rewrite map_lookup_imap, Hfresh. }
    rewrite map_fold_insert_L; cycle 1.
    { intros. lia. }
    { done. }
    by rewrite IH, entry_count_session_entry.
Qed.

Lemma size_imap_sessions md (act : gmap string (gmap string ws)) :
  size (map_imap (λ sid users, Some (session_entry md sid users)) act) = size act.
Proof.
  induction act as [|sid users act Hfresh IH] using map_ind.
  - by rewrite map_imap_empty, !map_size_empty.
  - rewrite (map_imap_insert_Some _ sid users act (session_entry md sid users)) by done.
    rewrite !map_size_insert_None; [by rewrite IH|done|].
    by rewrite map_lookup_imap, Hfresh.
Qed.

(** X18. [get_active_sessions] changes nothing and reports the live
    membership: its [sessions] have one entry for each session of the
    registry and no other, [total_sessions] is their number, and
    [total_users] is the sum of the numbers of registered participants,
    counted from the participant maps and not from the maintained
    [user_count]. *)
Theorem directory_reports_live_membership σ :
  ∃ sessions,
    get_active_sessions σ = (Ok (directory sessions), σ) ∧
    (∀ sid, sessions !! sid =
            session_entry (session_metadata (self σ)) sid <$> active_sessions (self σ) !! sid) ∧
    size sessions = size (active_sessions (self σ)) ∧
    map_fold (λ _ s total, entry_count s + total) 0 sessions =
      map_fold (λ _ (users : gmap string ws) total, Z.of_nat (size users) + total) 0
        (active_sessions (self σ)).
Proof.
  eexists. split_and!.
  - reflexivity.
  - intros sid. rewrite map_lookup_imap.
    by destruct (active_sessions (self σ) !! sid).
  - apply size_imap_sessions.
  - apply total_users_fold.
Qed.

(** X19. The directory follows disconnections: from a registry that
    satisfies the invariant, after the disconnect of a registered
    participant the session is gone from [get_active_sessions] when it was
    the last one, and otherwise still listed with a [user_count] one lower
    that agrees with the maintained count. *)
Theorem directory_follows_disconnect σ session_id user_id w now :
  registry_inv (self σ) →
  participants (self σ) session_id !! user_id = Some w →
  ∃ σ' sessions,
    _handle_user_disconnect session_id user_id now σ = (Ok tt, σ') ∧
    get_active_sessions σ' = (Ok (directory sessions), σ') ∧
    match sessions !! session_id with
    | None => delete user_id (participants (self σ) session_id) = ∅
    | Some entry =>
        delete user_id (participants (self σ) session_id) ≠ ∅ ∧
        entry_count entry = Z.of_nat (size (participants (self σ) session_id)) - 1 ∧
        entry_count entry = known_count (self σ') session_id
    end.
Proof.
  intros Hinv Hreg.
  destruct (disconnect_world σ session_id user_id now Hinv) as (tr & Hrun & _).
  eexists _, _. split; [exact Hrun|]. split; [reflexivity|].
  rewrite map_lookup_imap. simpl. unfold unregistered, known_count.
  unfold participants in *.
  destruct (active_sessions (self σ) !! session_id) as [users|] eqn:Hsid;
    simpl in *; [|by rewrite lookup_empty in Hreg].
  destruct (decide (delete user_id users = ∅)) as [Hempty|Hleft].
  - rewrite bool_decide_eq_true_2 by done. simpl. by rewrite lookup_delete_eq.
  - rewrite bool_decide_eq_false_2 by done. simpl. rewrite !lookup_insert_eq. simpl.
    split_and!; [done| |done].
    rewrite ?entry_count_session_entry. rewrite map_size_delete_Some by done.
    assert (size users ≠ 0%nat) as Hpos.
    { apply map_size_non_empty_iff. intros ->. by rewrite lookup_empty in Hreg. }
    rewrite ?lookup_insert_eq. lia.
Qed.

(** ** Session metadata in the broker *)

Lemma redis_ping_up σ : broker_up σ → redis_call (λ r, (tt, r)) σ = (Ok tt, σ).
Proof. intros Hup. rewrite redis_call_run by done. simpl. by rewrite with_broker_id. Qed.

Lemma get_session_info_found σ sid (kv : strings_store) data seconds :
  broker_up σ →
  kv !! metadata_key sid = Some (dumps (JDict data), seconds) →
  get_session_info sid kv σ = (Ok (Some (reported_info (self σ) sid data)), σ).
Proof.
  intros Hup Hkey. unfold get_session_info, redis_get.
  apply try_except_ok.
  unfold bind at 1. unfold bind at 1. rewrite redis_ping_up by done.
  unfold ret at 1. rewrite Hkey. reflexivity.
Qed.

(** X20. What [create_session] stores, [get_session_info] reads back:
    with the broker available, [create_session] returns the id it was
    given and stores the session data under the metadata key for 86400
    seconds; [get_session_info] for that id then returns this data (id,
    creation time, creator "system") with two fields added from the
    registry of the asking process: the number of local participants of
    the session and whether it has a local entry. *)
Theorem created_session_is_read_back σ session_id now (kv : strings_store) :
  broker_up σ →
  ∃ kv',
    create_session session_id now kv σ
    = (Ok (session_id, kv'), extend [Log INFO "New collaboration session created"] σ) ∧
    kv' !! metadata_key session_id
    = Some (dumps (JDict (session_data session_id now)), 86400) ∧
    ∀ σ2, broker_up σ2 →
          get_session_info session_id kv' σ2
          = (Ok (Some (reported_info (self σ2) session_id (session_data session_id now))), σ2).
Proof.
  intros Hup. eexists. split_and!.
  - unfold create_session, setex.
    unfold bind at 1. unfold bind at 1. rewrite redis_ping_up by done.
    reflexivity.
  - by rewrite lookup_insert_eq.
  - intros σ2 Hup2. apply (get_session_info_found σ2 _ _ _ 86400 Hup2).
    by rewrite lookup_insert_eq.
Qed.

(** X21. [get_session_info] never raises. For an id without stored data
    it returns [None] without a log entry; when the broker cannot be
    reached, or the stored text is not JSON, or it is JSON but not an
    object, it returns [None] after one warning. In every case the world is
    left as it was, but for that warning. *)
Theorem session_info_lookup_never_fails σ session_id (kv : strings_store) :
  (∃ r tr, get_session_info session_id kv σ = (Ok r, extend tr σ) ∧ sends tr = []) ∧
  (broker_up σ → kv !! metadata_key session_id = None →
   get_session_info session_id kv σ = (Ok None, σ)) ∧
  (¬ broker_up σ →
   get_session_info session_id kv σ
   = (Ok None, extend [Log WARNING "Failed to get session info"] σ)) ∧
  (∀ t seconds,
     broker_up σ → kv !! metadata_key session_id = Some (t, seconds) →
     text_truthy t = true → undecodable t = true →
     get_session_info session_id kv σ
     = (Ok None, extend [Log WARNING "Failed to get session info"] σ)).
Proof.
  assert (broker_up σ → kv !! metadata_key session_id = None →
          get_session_info session_id kv σ = (Ok None, σ)) as Hmissing.
  { intros Hup Hkey. unfold get_session_info, redis_get. apply try_except_ok.
    unfold bind at 1. unfold bind at 1. rewrite redis_ping_up by done.
    unfold ret at 1. by rewrite Hkey. }
  assert (¬ broker_up σ →
          get_session_info session_id kv σ
          = (Ok None, extend [Log WARNING "Failed to get session info"] σ)) as Hdown.
  { intros Hdown. unfold get_session_info, redis_get.
    destruct (redis_call_down (λ r, (tt, r)) σ Hdown) as (e & Hraise & _).
    erewrite try_except_raise; [reflexivity|].
    unfold bind at 1. unfold bind at 1. by rewrite Hraise. }
  assert (∀ t seconds,
            broker_up σ → kv !! metadata_key session_id = Some (t, seconds) →
            text_truthy t = true → undecodable t = true →
            get_session_info session_id kv σ
            = (Ok None, extend [Log WARNING "Failed to get session info"] σ)) as Hbad.
  { intros t seconds Hup Hkey Htruthy Hbad. unfold get_session_info, redis_get.
    destruct t as [[| | | | |d]|raw]; try done;
      (erewrite try_except_raise; [reflexivity|];
       unfold bind at 1; unfold bind at 1; rewrite redis_ping_up by done;
       unfold ret at 1; rewrite Hkey; simpl in *; rewrite ?Htruthy; reflexivity). }
  split_and!; [|done..].
  destruct (decide (broker_up σ)) as [Hup|Hdown'].
  - destruct (kv !! metadata_key session_id) as [[t seconds]|] eqn:Hkey.
    + destruct (text_truthy t) eqn:Htruthy.
      * destruct (undecodable t) eqn:Hund.
        -- rewrite (Hbad t seconds Hup eq_refl Htruthy Hund). by eexists _, _.
        -- destruct t as [[| | | | |d]|raw]; try done.
           rewrite (get_session_info_found σ session_id kv d seconds Hup Hkey).
           eexists _, []. by rewrite extend_nil.
      * exists None, []. rewrite extend_nil. split; [|done].
        unfold get_session_info, redis_get. apply try_except_ok.
        unfold bind at 1. unfold bind at 1. rewrite redis_ping_up by done.
        unfold ret at 1. rewrite Hkey. simpl. by rewrite Htruthy.
    + rewrite (Hmissing Hup eq_refl). exists None, []. by rewrite extend_nil.
  - rewrite (Hdown Hdown'). by eexists _, _.
Qed.

(** X22. [create_session] has no handler of its own: when the broker
    cannot be reached it raises the error of the client to its caller,
    writes no log entry and leaves the world as it was. *)
Theorem create_session_needs_the_broker σ session_id now (kv : strings_store) :
  ¬ broker_up σ →
  ∃ e, create_session session_id now kv σ = (Raise e, σ) ∧
       (e = AttributeError ∨ e = RedisConnectionError).
Proof.
  intros Hdown.
  destruct (redis_call_down (λ r, (tt, r)) σ Hdown) as (e & Hraise & He).
  exists e. split; [|done].
  unfold create_session, setex. unfold bind at 1. unfold bind at 1. by rewrite Hraise.
Qed.

(** ** The further properties on concrete worlds *)

Lemma campus_inv : registry_inv (self campus).
Proof. apply (bool_decide_unpack _). vm_compute. exact I. Qed.

Lemma offline_world_down : ¬ broker_up offline_world.
Proof. intros [Hclient _]. discriminate Hclient. Qed.

Lemma corrupt_world_up : broker_up corrupt_world.
Proof. by split. Qed.

Lemma busy_world_up : broker_up busy_world.
Proof. by split. Qed.

Lemma broadcast_without_exclusion_witness :
  (∀ s, JNull = JStr s → s = "") ∧
  ∃ tr,
    _broadcast_to_session "s" (ev "annotation") JNull lobby = (Ok tt, extend tr lobby) ∧
    sends tr = deliveries (participants (self lobby) "s") (dumps (ev "annotation")).
Proof.
  assert (∀ s, JNull = JStr s → s = "") as Hex by (intros s Heq; discriminate Heq).
  split; [exact Hex|].
  exact (broadcast_without_exclusion lobby "s" (ev "annotation") JNull Hex).
Defined.

Lemma connection_leaves_registry_as_found_witness :
  (registry_inv (self lobby) ∧ participants (self lobby) "s" !! "u3" = None) ∧
  ∃ σ',
    handle_connection 3%nat "s" "u3" "t1" "t2"
      [(Garbled "{", "t3"); (Encoded (ev "cursor_move"), "t4")] CloseError "t5" lobby
    = (Ok tt, σ') ∧
    self σ' = self lobby ∧
    links σ' = links lobby ∧
    reachable (broker σ') = reachable (broker lobby).
Proof.
  assert (participants (self lobby) "s" !! "u3" = None) as Hfresh by (by vm_compute).
  split; [split; [exact lobby_inv|exact Hfresh]|].
  exact (connection_leaves_registry_as_found lobby 3%nat "s" "u3" "t1" "t2"
           [(Garbled "{", "t3"); (Encoded (ev "cursor_move"), "t4")] CloseError "t5"
           lobby_inv Hfresh).
Defined.

Lemma disconnect_of_unknown_participant_witness :
  (registry_inv (self lobby) ∧ participants (self lobby) "s" !! "u9" = None) ∧
  ∃ σ' tr,
    _handle_user_disconnect "s" "u9" "t5" lobby = (Ok tt, σ') ∧
    self σ' = self lobby ∧
    trace σ' = trace lobby ++ tr ∧
    sends tr =
      deliveries (participants (self lobby) "s")
        (dumps (presence_event "USER_LEAVE" "u9" "t5"
                  (Z.of_nat (size (participants (self lobby) "s"))))).
Proof.
  assert (participants (self lobby) "s" !! "u9" = None) as Hfresh by (by vm_compute).
  split; [split; [exact lobby_inv|exact Hfresh]|].
  exact (disconnect_of_unknown_participant lobby "s" "u9" "t5" lobby_inv Hfresh).
Defined.

Lemma registry_changes_stay_in_their_session_witness :
  (registry_inv (self campus) ∧ "t" ≠ "s") ∧
  (∃ σ', add_participant 4%nat "s" "u4" "t9" campus = (Ok tt, σ') ∧
         active_sessions (self σ') !! "t" = active_sessions (self campus) !! "t" ∧
         session_metadata (self σ') !! "t" = session_metadata (self campus) !! "t") ∧
  (∃ σ', _handle_user_disconnect "s" "u1" "t9" campus = (Ok tt, σ') ∧
         active_sessions (self σ') !! "t" = active_sessions (self campus) !! "t" ∧
         session_metadata (self σ') !! "t" = session_metadata (self campus) !! "t").
Proof.
  assert ("t" ≠ "s") as Hne by (intros Heq; discriminate Heq).
  split; [split; [exact campus_inv|exact Hne]|].
  destruct (registry_changes_stay_in_their_session campus "s" "t" campus_inv Hne)
    as [Hadd Hremove].
  split; [apply Hadd|apply Hremove].
Defined.

Lemma creation_time_is_kept_witness :
  (registry_inv (self lobby) ∧ session_metadata (self lobby) !! "s" = Some (mkMeta "t0" 2)) ∧
  (∃ σ' meta',
     add_participant 3%nat "s" "u3" "t9" lobby = (Ok tt, σ') ∧
     session_metadata (self σ') !! "s" = Some meta' ∧
     created_at meta' = "t0") ∧
  (∃ σ' meta',
     _handle_user_disconnect "s" "u1" "t9" lobby = (Ok tt, σ') ∧
     session_metadata (self σ') !! "s" = Some meta' ∧
     created_at meta' = "t0").
Proof.
  assert (session_metadata (self lobby) !! "s" = Some (mkMeta "t0" 2)) as Hmeta
    by (by vm_compute).
  split; [split; [exact lobby_inv|exact Hmeta]|].
  destruct (creation_time_is_kept lobby "s" (mkMeta "t0" 2) lobby_inv Hmeta)
    as [Hadd Hremove].
  split; [apply Hadd|apply Hremove].
  vm_compute. intros Heq. discriminate Heq.
Defined.

Lemma replay_degrades_without_broker_witness :
  ¬ broker_up offline_world ∧
  _get_session_events "s" 50 offline_world
  = (Ok [], extend [Log WARNING "Failed to get session events"] offline_world) ∧
  ∃ tr,
    _send_session_state 7%nat "s" offline_world = (Ok tt, extend tr offline_world) ∧
    sends tr = [(7%nat, dumps (state_message "s" [] (known_count (self offline_world) "s")))].
Proof.
  split; [exact offline_world_down|].
  exact (replay_degrades_without_broker offline_world 7%nat "s" 50 offline_world_down).
Defined.

Lemma corrupt_entry_empties_replay_witness :
  (broker_up corrupt_world ∧ 0 < 50 ∧
   Garbled "{" ∈ take (Z.to_nat 50) (history corrupt_world "s")) ∧
  _get_session_events "s" 50 corrupt_world
  = (Ok [], extend [Log WARNING "Failed to get session events"] corrupt_world).
Proof.
  assert (Garbled "{" ∈ take (Z.to_nat 50) (history corrupt_world "s")) as Hin.
  { vm_compute. apply list_elem_of_further, list_elem_of_here. }
  split; [split_and!; [exact corrupt_world_up|reflexivity|exact Hin]|].
  exact (corrupt_entry_empties_replay corrupt_world "s" 50 "{" corrupt_world_up eq_refl Hin).
Defined.


Lemma failed_append_is_not_fatal_witness :
  ¬ broker_up offline_world ∧
  _store_session_event "s" (ev "annotation") offline_world
  = (Ok tt, extend [Log WARNING "Failed to store session event"] offline_world).
Proof.
  split; [exact offline_world_down|].
  exact (failed_append_is_not_fatal offline_world "s" (ev "annotation") offline_world_down).
Defined.

Lemma append_refreshes_ttl_of_its_session_only_witness :
  broker_up busy_world ∧
  ∃ σ',
    _store_session_event "t" (ev "annotation") busy_world = (Ok tt, σ') ∧
    ttls (broker σ') !! events_key "t" = Some 86400 ∧
    (∀ other, other ≠ "t" →
       history σ' other = history busy_world other ∧
       ttls (broker σ') !! events_key other = ttls (broker busy_world) !! events_key other) ∧
    published (broker σ') = published (broker busy_world) ∧
    self σ' = self busy_world ∧
    trace σ' = trace busy_world.
Proof.
  split; [exact busy_world_up|].
  exact (append_refreshes_ttl_of_its_session_only busy_world "t" (ev "annotation")
           busy_world_up).
Defined.

Lemma appends_below_cap_lose_nothing_witness :
  (broker_up busy_world ∧ history busy_world "s" = dumps <$> replicate 60 (ev "A") ∧
   (length [ev "B"; ev "C"] + length (replicate 60 (ev "A")) ≤ 1000)%nat) ∧
  ∃ σ',
    for_each [ev "B"; ev "C"] (_store_session_event "s") busy_world = (Ok tt, σ') ∧
    history σ' "s" = dumps <$> (reverse [ev "B"; ev "C"] ++ replicate 60 (ev "A")) ∧
    _get_session_events "s" 1000 σ'
    = (Ok (reverse [ev "B"; ev "C"] ++ replicate 60 (ev "A")), σ').
Proof.
  assert (history busy_world "s" = dumps <$> replicate 60 (ev "A")) as Hold by reflexivity.
  assert ((length [ev "B"; ev "C"] + length (replicate 60 (ev "A")) ≤ 1000)%nat) as Hlen.
  { rewrite length_replicate. simpl. lia. }
  split; [split_and!; [exact busy_world_up|exact Hold|exact Hlen]|].
  exact (appends_below_cap_lose_nothing busy_world "s" _ _ busy_world_up Hold Hlen).
Defined.

Lemma accepted_events_keep_their_order_witness :
  (broker_up lobby ∧ (length (history lobby "s") ≤ 1000)%nat) ∧
  ∃ σ',
    for_each [(Encoded (ev "view_change"), "t5"); (Encoded (ev "cursor_move"), "t6")]
      (on_message "s" "u1") lobby = (Ok tt, σ') ∧
    published (broker σ') =
      [(channel, dumps (JDict (enrich {[ "type" := JStr "view_change" ]} "u1" "s" "t5")));
       (channel, dumps (JDict (enrich {[ "type" := JStr "cursor_move" ]} "u1" "s" "t6")))] ∧
    history σ' "s" =
      [dumps (JDict (enrich {[ "type" := JStr "cursor_move" ]} "u1" "s" "t6"));
       dumps (JDict (enrich {[ "type" := JStr "view_change" ]} "u1" "s" "t5"))].
Proof.
  assert ((length (history lobby "s") ≤ 1000)%nat) as Hlen by (vm_compute; lia).
  split; [split; [exact lobby_up|exact Hlen]|].
  exact (accepted_events_keep_their_order lobby "s" "u1"
           [({[ "type" := JStr "view_change" ]}, "t5"%string);
            ({[ "type" := JStr "cursor_move" ]}, "t6"%string)] lobby_up Hlen).
Defined.

Lemma relayed_event_reaches_all_local_participants_witness :
  (enrich {[ "type" := JStr "view_change" ]} "remote" "s" "t9" !! "session_id"
     = Some (JStr "s") ∧
   enrich {[ "type" := JStr "view_change" ]} "remote" "s" "t9" !! "user_id"
     = Some (JStr "remote") ∧
   participants (self lobby) "s" !! "remote" = None) ∧
  ∃ tr,
    on_pubsub_message
      (mkPubSubMessage "message"
         (dumps (JDict (enrich {[ "type" := JStr "view_change" ]} "remote" "s" "t9")))) lobby
    = (Ok tt, extend tr lobby) ∧
    sends tr = deliveries (participants (self lobby) "s")
                 (dumps (JDict (enrich {[ "type" := JStr "view_change" ]} "remote" "s" "t9"))).
Proof.
  assert (enrich {[ "type" := JStr "view_change" ]} "remote" "s" "t9" !! "session_id"
          = Some (JStr "s")) as Hsid by (by vm_compute).
  assert (enrich {[ "type" := JStr "view_change" ]} "remote" "s" "t9" !! "user_id"
          = Some (JStr "remote")) as Huid by (by vm_compute).
  assert (participants (self lobby) "s" !! "remote" = None) as Habsent by (by vm_compute).
  split; [split_and!; assumption|].
  exact (relayed_event_reaches_all_local_participants lobby _ "s" "remote" Hsid Huid Habsent).
Defined.

Lemma start_succeeds_with_broker_witness :
  reachable (broker fresh_world) = true ∧
  ∃ σ',
    start fresh_world = (Ok tt, σ') ∧
    redis_client (self σ') = true ∧
    pubsub (self σ') = true ∧
    listener (self σ') = true ∧
    active_sessions (self σ') = active_sessions (self fresh_world) ∧
    session_metadata (self σ') = session_metadata (self fresh_world) ∧
    broker σ' = broker fresh_world ∧
    trace σ' = trace fresh_world ++ [Log INFO "Collaboration manager started successfully"].
Proof.
  split; [reflexivity|].
  exact (start_succeeds_with_broker fresh_world eq_refl).
Defined.

Lemma directory_follows_disconnect_witness :
  (registry_inv (self campus) ∧ participants (self campus) "t" !! "u3" = Some 3%nat) ∧
  ∃ σ' sessions,
    _handle_user_disconnect "t" "u3" "t9" campus = (Ok tt, σ') ∧
    get_active_sessions σ' = (Ok (directory sessions), σ') ∧
    match sessions !! "t" with
    | None => delete "u3" (participants (self campus) "t") = ∅
    | Some entry =>
        delete "u3" (participants (self campus) "t") ≠ ∅ ∧
        entry_count entry = Z.of_nat (size (participants (self campus) "t")) - 1 ∧
        entry_count entry = known_count (self σ') "t"
    end.
Proof.
  assert (participants (self campus) "t" !! "u3" = Some 3%nat) as Hreg by (by vm_compute).
  split; [split; [exact campus_inv|exact Hreg]|].
  exact (directory_follows_disconnect campus "t" "u3" 3%nat "t9" campus_inv Hreg).
Defined.

Lemma created_session_is_read_back_witness :
  broker_up fresh_world ∧
  ∃ kv',
    create_session "s" "t0" ∅ fresh_world
    = (Ok ("s", kv'), extend [Log INFO "New collaboration session created"] fresh_world) ∧
    kv' !! metadata_key "s" = Some (dumps (JDict (session_data "s" "t0")), 86400) ∧
    get_session_info "s" kv' lobby
    = (Ok (Some (reported_info (self lobby) "s" (session_data "s" "t0"))), lobby).
Proof.
  split; [exact fresh_world_up|].
  destruct (created_session_is_read_back fresh_world "s" "t0" ∅ fresh_world_up)
    as (kv' & Hrun & Hkey & Hread).
  exists kv'. split_and!; [exact Hrun|exact Hkey|exact (Hread lobby lobby_up)].
Defined.

Lemma create_session_needs_the_broker_witness :
  ¬ broker_up offline_world ∧
  ∃ e, create_session "s" "t0" ∅ offline_world = (Raise e, offline_world) ∧
       (e = AttributeError ∨ e = RedisConnectionError).
Proof.
  split; [exact offline_world_down|].
  exact (create_session_needs_the_broker offline_world "s" "t0" ∅ offline_world_down).
Defined.
